(** * GIFT question-bank parser ([gift_to_pdf.py], class [GiftParser])

    A shallow embedding of the parser and the properties of its
    specification.

    Text.  A Python [str] is modelled as the [string] of its UTF-8 bytes.
    Every marker the parser searches for is ASCII, and UTF-8 never uses
    an ASCII byte inside a multi-byte character, so searching, splitting
    and slicing on these strings agree with Python's on code points.
    Where Python looks at one character at a time, in [str.strip], in
    [float] and in the regular-expression classes [\s] and [\d], the text
    is cut into its characters ([chars]), and the classes are the Unicode
    ones: the white space of [str.isspace] and the decimal digits of
    every script, as in Unicode 14.0, the version of CPython 3.11.

    Errors.  Python exceptions are the [Raise] results of the [result]
    monad below. *)

From Stdlib Require Import String Ascii List ZArith NArith Lia Bool Arith.
From Stdlib Require Import DecimalString.
From Stdlib.Strings Require Import Byte.
Import ListNotations.
Open Scope string_scope.
Open Scope bool_scope.

(** ** Python string primitives *)

Module PyStr.

Definition nl : ascii := "010"%char.
Definition NL : string := String nl "".

(** Truth value of a string: non-empty. *)
Definition truthy (s : string) : bool := negb (s =? "").

(** Membership in a list literal of strings. *)
Definition in_list (s : string) (l : list string) : bool :=
  existsb (String.eqb s) l.

(** *** Characters *)

(** The UTF-8 bytes of the code point [cp]. *)
Definition utf8 (cp : N) : string :=
  let byte n := String (ascii_of_N n) "" in
  (if cp <? 0x80 then byte cp
   else if cp <? 0x800 then byte (0xC0 + cp / 64) ++ byte (0x80 + cp mod 64)
   else if cp <? 0x10000 then
     byte (0xE0 + cp / 4096) ++ byte (0x80 + (cp / 64) mod 64)
     ++ byte (0x80 + cp mod 64)
   else
     byte (0xF0 + cp / 262144) ++ byte (0x80 + (cp / 4096) mod 64)
     ++ byte (0x80 + (cp / 64) mod 64) ++ byte (0x80 + cp mod 64))%N.

(** A byte of a character beyond ASCII, and one that is not the first of
    its character. *)
Definition is_high (c : ascii) : bool := (128 <=? nat_of_ascii c)%nat.

Definition is_continuation (c : ascii) : bool :=
  (128 <=? nat_of_ascii c)%nat && (nat_of_ascii c <? 192)%nat.

(** The characters of a text, each as the string of its bytes: a byte
    beyond ASCII goes in front of the bytes that continue it. *)
Fixpoint chars (s : string) : list string :=
  match s with
  | "" => []
  | String c t =>
      match chars t with
      | String d ch :: rest =>
          if is_high c && is_continuation d
          then String c (String d ch) :: rest
          else String c "" :: String d ch :: rest
      | other => String c "" :: other
      end
  end.

(** The text of a list of characters. *)
Fixpoint flatten (l : list string) : string :=
  match l with
  | [] => ""
  | ch :: t => ch ++ flatten t
  end.

(** The code points [str.isspace] and [\s] take. *)
Definition white_space : list N :=
  [
   0x9; 0xA; 0xB; 0xC; 0xD; 0x1C; 0x1D; 0x1E;
   0x1F; 0x20; 0x85; 0xA0; 0x1680; 0x2000; 0x2001; 0x2002;
   0x2003; 0x2004; 0x2005; 0x2006; 0x2007; 0x2008; 0x2009; 0x200A;
   0x2028; 0x2029; 0x202F; 0x205F; 0x3000
  ]%N.

Definition spaces : list string := Eval vm_compute in map utf8 white_space.

(** [ch.isspace()], and [\s], for a character [ch]. *)
Definition is_space (ch : string) : bool := in_list ch spaces.

(** The code points of the digit zero of every script; the nine code
    points after each are its digits one to nine. *)
Definition decimal_zeros : list N :=
  [
   0x30; 0x660; 0x6F0; 0x7C0; 0x966; 0x9E6; 0xA66; 0xAE6;
   0xB66; 0xBE6; 0xC66; 0xCE6; 0xD66; 0xDE6; 0xE50; 0xED0;
   0xF20; 0x1040; 0x1090; 0x17E0; 0x1810; 0x1946; 0x19D0; 0x1A80;
   0x1A90; 0x1B50; 0x1BB0; 0x1C40; 0x1C50; 0xA620; 0xA8D0; 0xA900;
   0xA9D0; 0xA9F0; 0xAA50; 0xABF0; 0xFF10; 0x104A0; 0x10D30; 0x11066;
   0x110F0; 0x11136; 0x111D0; 0x112F0; 0x11450; 0x114D0; 0x11650; 0x116C0;
   0x11730; 0x118E0; 0x11950; 0x11C50; 0x11D50; 0x11DA0; 0x16A60; 0x16AC0;
   0x16B50; 0x1D7CE; 0x1D7D8; 0x1D7E2; 0x1D7EC; 0x1D7F6; 0x1E140; 0x1E2F0;
   0x1E950; 0x1FBF0
  ]%N.

(** The decimal digits, decade after decade. *)
Definition digits : list string :=
  Eval vm_compute in
  flat_map (fun z => map (fun i => utf8 (z + i))
                         [0; 1; 2; 3; 4; 5; 6; 7; 8; 9]%N)
           decimal_zeros.

Fixpoint index_of (ch : string) (l : list string) : option nat :=
  match l with
  | [] => None
  | x :: t => if ch =? x then Some O else option_map S (index_of ch t)
  end.

(** The value of the decimal digit [ch]. *)
Definition digit_value (ch : string) : option Z :=
  option_map (fun i => Z.of_nat (i mod 10)) (index_of ch digits).

(** [\d] for a character [ch]. *)
Definition is_digit (ch : string) : bool :=
  match index_of ch digits with
  | Some _ => true
  | None => false
  end.

(** *** Strings *)

(** The characters [l] without the white space they start with. *)
Fixpoint lstrip_chars (l : list string) : list string :=
  match l with
  | ch :: t => if is_space ch then lstrip_chars t else l
  | [] => []
  end.

(** The characters [l] without the white space they end with. *)
Fixpoint rstrip_chars (l : list string) : list string :=
  match l with
  | ch :: t =>
      match rstrip_chars t with
      | [] => if is_space ch then [] else [ch]
      | r => ch :: r
      end
  | [] => []
  end.

(** [s.strip()] *)
Definition strip (s : string) : string :=
  flatten (rstrip_chars (lstrip_chars (chars s))).

(** [s.startswith(p)] *)
Definition startswith (p s : string) : bool := prefix p s.

(** [s.endswith(p)] *)
Fixpoint endswith (p s : string) : bool :=
  (s =? p) ||
  match s with
  | String _ t => endswith p t
  | "" => false
  end.

(** [sub in s] *)
Fixpoint contains (sub s : string) : bool :=
  prefix sub s ||
  match s with
  | String _ t => contains sub t
  | "" => false
  end.

(** [s[n:]] *)
Fixpoint drop (n : nat) (s : string) : string :=
  match n, s with
  | S k, String _ t => drop k t
  | _, _ => s
  end.

(** [s.replace(old, new)] for a non-empty [old]: occurrences are found
    left to right and do not overlap.  [skip] counts the characters of
    the occurrence just replaced that are still to be passed over. *)
Fixpoint replace_from (old new : string) (skip : nat) (s : string) : string :=
  match s with
  | "" => ""
  | String c t =>
      match skip with
      | S k => replace_from old new k t
      | O =>
          if prefix old s
          then new ++ replace_from old new (String.length old - 1) t
          else String c (replace_from old new 0 t)
      end
  end.

Definition replace (old new s : string) : string := replace_from old new 0 s.

(** Put [c] in front of the first piece of a split. *)
Definition push (c : ascii) (pieces : list string) : list string :=
  match pieces with
  | h :: tl => String c h :: tl
  | [] => [String c ""]
  end.

(** [s.split(sep)] for a one-character [sep]. *)
Fixpoint split (sep : ascii) (s : string) : list string :=
  match s with
  | "" => [""]
  | String c t =>
      if Ascii.eqb c sep then "" :: split sep t else push c (split sep t)
  end.

(** The first occurrence of [sub] in [s]: what precedes and what follows
    it ([s.partition(sub)] when [sub] occurs). *)
Fixpoint cut (sub s : string) : option (string * string) :=
  if prefix sub s then Some ("", drop (String.length sub) s)
  else
    match s with
    | "" => None
    | String c t =>
        match cut sub t with
        | Some (l, r) => Some (String c l, r)
        | None => None
        end
    end.

(** [sep.join(l)] *)
Fixpoint join (sep : string) (l : list string) : string :=
  match l with
  | [] => ""
  | [x] => x
  | x :: tl => x ++ sep ++ join sep tl
  end.

(** The longest run of characters that satisfy [p] at the head of [l],
    and the rest. *)
Fixpoint span (p : string -> bool) (l : list string)
  : list string * list string :=
  match l with
  | ch :: t => if p ch then let (a, b) := span p t in (ch :: a, b) else ([], l)
  | [] => ([], [])
  end.

Definition is_nil (l : list string) : bool :=
  match l with
  | [] => true
  | _ => false
  end.

(** [s.upper()] on the ASCII letters.  The parser applies it only to a
    string already known to be one of T, F, TRUE, FALSE. *)
Definition upper_char (c : ascii) : ascii :=
  let n := nat_of_ascii c in
  if (97 <=? n)%nat && (n <=? 122)%nat then ascii_of_nat (n - 32) else c.

Fixpoint upper (s : string) : string :=
  match s with
  | String c t => String (upper_char c) (upper t)
  | "" => ""
  end.

End PyStr.
Import PyStr.

(** ** Python floats

    [float(s)] and [str(x)] of CPython, on IEEE binary64: conversion of a
    decimal literal rounds to nearest, ties to even, and overflows to an
    infinity; [str] prints the shortest decimal that converts back to the
    same value. *)

Module PyFloat.

Local Open Scope Z_scope.

(** [Finite neg m e] is [m * 2^e] with sign [neg]; zero is [m = 0, e = 0],
    a normal value has [2^52 <= m < 2^53] and [e <= 971], a subnormal one
    has [e = -1074]. *)
Inductive float : Set :=
| Finite (neg : bool) (m e : Z)
| Inf (neg : bool).

Definition digit_val (ch : string) : Z :=
  match digit_value ch with
  | Some d => d
  | None => 0
  end.

Fixpoint digits_val (acc : Z) (l : list string) : Z :=
  match l with
  | [] => acc
  | ch :: t => digits_val (10 * acc + digit_val ch) t
  end.

(** The binary64 nearest to [num / den] ([0 <= num], [0 < den]). *)
Definition round_ratio (neg : bool) (num den : Z) : float :=
  if num =? 0 then Finite neg 0 0
  else
    let k0 := Z.log2 num - Z.log2 den in
    let above :=
      if 0 <=? k0 then den * 2 ^ k0 <=? num else den <=? num * 2 ^ (- k0) in
    let k := if above then k0 else k0 - 1 in
    let e := Z.max (k - 52) (-1074) in
    let n' := if 0 <=? e then num else num * 2 ^ (- e) in
    let d' := if 0 <=? e then den * 2 ^ e else den in
    let q := n' / d' in
    let r := n' mod d' in
    let q' := if (d' <? 2 * r) || ((d' =? 2 * r) && Z.odd q) then q + 1 else q in
    let (m, e') := if q' =? 2 ^ 53 then (2 ^ 52, e + 1) else (q', e) in
    if m =? 0 then Finite neg 0 0
    else if 971 <? e' then Inf neg
    else Finite neg m e'.

(** [float(s)] for [s] over the decimal digits and [. + -], the only
    characters the parser's patterns let through: an optional sign, then
    digits, of any script, with at most one point and at least one digit.
    [None] is [ValueError].  (The other spellings [float] takes, with
    white space, an exponent, an underscore, or the words inf and nan,
    need other characters.) *)
Definition of_string (s : string) : option float :=
  let l := chars s in
  let (neg, body) :=
    match l with
    | ch :: t =>
        if (ch =? "-")%string then (true, t)
        else if (ch =? "+")%string then (false, t)
        else (false, l)
    | [] => (false, l)
    end in
  let (ip, r1) := span is_digit body in
  let (fp, r2) :=
    match r1 with
    | ch :: t => if (ch =? ".")%string then span is_digit t else ([], r1)
    | [] => ([], r1)
    end in
  if is_nil r2 && negb (is_nil ip && is_nil fp)
  then Some (round_ratio neg (digits_val 0 (ip ++ fp))
                         (10 ^ Z.of_nat (List.length fp)))
  else None.

(** [x > 0] *)
Definition is_positive (x : float) : bool :=
  match x with
  | Finite false m _ => 0 <? m
  | Inf false => true
  | _ => false
  end.

(** The exact value [m * 2^e] as a fraction. *)
Definition ratio (m e : Z) : Z * Z :=
  if 0 <=? e then (m * 2 ^ e, 1) else (m, 2 ^ (- e)).

(** [num / den < 10^p] *)
Definition below_pow10 (num den p : Z) : bool :=
  if 0 <=? p then num <? den * 10 ^ p else num * 10 ^ (- p) <? den.

(** The least [p] with [num / den < 10^p]. *)
Definition decimal_point (num den : Z) : Z :=
  let p0 := (Z.log2 num - Z.log2 den) * 30103 / 100000 in
  match filter (below_pow10 num den)
               [p0 - 2; p0 - 1; p0; p0 + 1; p0 + 2; p0 + 3] with
  | p :: _ => p
  | [] => p0 + 3
  end.

Definition decimal (n : Z) : string :=
  NilEmpty.string_of_uint (N.to_uint (Z.to_N n)).

(** [n]-digit candidates around [m * 2^e]: the decimal [d * 10^s] that
    converts back to it, nearest first. *)
Definition candidate (m e : Z) (n : Z) : option (Z * Z) :=
  let (num, den) := ratio m e in
  let s := decimal_point num den - n in
  let sn := if 0 <=? s then num else num * 10 ^ (- s) in
  let sd := if 0 <=? s then den * 10 ^ s else den in
  let lo := sn / sd in
  let r := sn mod sd in
  let back d :=
    match (if 0 <=? s then round_ratio false (d * 10 ^ s) 1
           else round_ratio false d (10 ^ (- s))) with
    | Finite _ m' e' => (m' =? m) && (e' =? e)
    | Inf _ => false
    end in
  let hi_first := (sd <? 2 * r) || ((sd =? 2 * r) && Z.odd lo) in
  let first := if hi_first then lo + 1 else lo in
  let second := if hi_first then lo else lo + 1 in
  if back first then Some (first, s)
  else if back second then Some (second, s)
  else None.

Fixpoint shortest (m e : Z) (n : Z) (fuel : nat) : Z * Z :=
  match fuel with
  | O => (m, 0)
  | S k =>
      match candidate m e n with
      | Some ds => ds
      | None => shortest m e (n + 1) k
      end
  end.

Fixpoint zeros (n : nat) : string :=
  match n with
  | O => ""
  | S k => String "0" (zeros k)
  end.

Fixpoint rstrip_zeros (s : string) : string :=
  match s with
  | String c t =>
      match rstrip_zeros t with
      | ""%string => if Ascii.eqb c "0" then ""%string else String c ""
      | r => String c r
      end
  | ""%string => ""%string
  end.

(** Digits [ds] with the point after the first [dp] of them, as [repr]
    lays them out: positional for [-4 < dp <= 16], else with an exponent
    of at least two digits. *)
Definition layout (ds : string) (dp : Z) : string :=
  let len := Z.of_nat (String.length ds) in
  if (-4 <? dp) && (dp <=? 16) then
    if dp <=? 0 then "0." ++ zeros (Z.to_nat (- dp)) ++ ds
    else if len <=? dp then ds ++ zeros (Z.to_nat (dp - len)) ++ ".0"
    else substring 0 (Z.to_nat dp) ds ++ "."
         ++ substring (Z.to_nat dp) (Z.to_nat (len - dp)) ds
  else
    let x := dp - 1 in
    let ex := decimal (Z.abs x) in
    substring 0 1 ds
    ++ (if 1 <? len then "." ++ substring 1 (Z.to_nat (len - 1)) ds else "")
    ++ "e" ++ (if x <? 0 then "-" else "+")
    ++ (if Z.abs x <? 10 then "0" else "") ++ ex.

(** [str(x)], also what an f-string prints for [x]. *)
Definition to_string (x : float) : string :=
  match x with
  | Inf neg => if neg then "-inf" else "inf"
  | Finite neg m e =>
      (if neg then "-" else "") ++
      (if m =? 0 then "0.0"
       else
         let (d, s) := shortest m e 1 17 in
         let all := decimal d in
         layout (rstrip_zeros all) (Z.of_nat (String.length all) + s))
  end.

End PyFloat.

(** ** The regular expressions of the parser

    One matcher per pattern of the source, written out by hand.  None of
    the patterns needs more backtracking than the matchers do: wherever a
    greedy or lazy repetition is followed by a literal, the literal's
    first character is outside the repeated class, or the search for it
    is spelled out. *)

Module Re.

(** [re.sub(r'//.*$', '', content, flags=re.MULTILINE)]: from each [//]
    to the end of its line; [.] does not match a line feed. *)
Fixpoint sub_line_comments (inside : bool) (s : string) : string :=
  match s with
  | "" => ""
  | String c t =>
      if inside then
        if Ascii.eqb c nl then String c (sub_line_comments false t)
        else sub_line_comments true t
      else if prefix "//" s then sub_line_comments true t
      else String c (sub_line_comments false t)
  end.

(** Length of the shortest prefix of [s] that ends in [*/]. *)
Fixpoint comment_end (s : string) : option nat :=
  if prefix "*/" s then Some 2
  else
    match s with
    | "" => None
    | String _ t => option_map S (comment_end t)
    end.

(** [re.sub(r'/\*.*?\*/', '', content, flags=re.DOTALL)]: from each [/*]
    to the nearest [*/] after it; a [/*] that is never closed stays. *)
Fixpoint sub_block_comments (skip : nat) (s : string) : string :=
  match s with
  | "" => ""
  | String c t =>
      match skip with
      | S k => sub_block_comments k t
      | O =>
          if prefix "/*" s then
            match comment_end (drop 2 s) with
            | Some n => sub_block_comments (S n) t
            | None => String c (sub_block_comments 0 t)
            end
          else String c (sub_block_comments 0 t)
      end
  end.

(** For [\s*\n] after a line feed: how many bytes reach through the
    last line feed of the white space that the characters [l] start
    with. *)
Fixpoint blank_run (l : list string) : option nat :=
  match l with
  | ch :: t =>
      if is_space ch then
        match blank_run t with
        | Some k => Some (String.length ch + k)
        | None => if ch =? NL then Some 1 else None
        end
      else None
  | [] => None
  end.

(** [re.split(r'\n\s*\n', content)]; [skip] counts the bytes of the
    separator just found that are still to be passed over. *)
Fixpoint split_blank (skip : nat) (s : string) : list string :=
  match s with
  | "" => [""]
  | String c t =>
      match skip with
      | S k => split_blank k t
      | O =>
          if Ascii.eqb c nl then
            match blank_run (chars t) with
            | Some k => "" :: split_blank k t
            | None => push c (split_blank 0 t)
            end
          else push c (split_blank 0 t)
      end
  end.

(** The lazy group and closing [::] of [::(.*?)::]: group 1 and the text
    after the match. *)
Fixpoint title_rest (s : string) : option (string * string) :=
  if prefix "::" s then Some ("", drop 2 s)
  else
    match s with
    | "" => None
    | String c t =>
        if Ascii.eqb c nl then None
        else
          match title_rest t with
          | Some (g, r) => Some (String c g, r)
          | None => None
          end
    end.

(** [re.match(r'::(.*?)::', block)]: [(group(1), block[end():])]. *)
Definition match_title (block : string) : option (string * string) :=
  if prefix "::" block then title_rest (drop 2 block) else None.

(** The greedy group and tail [\}$] of the next pattern: [$] is the end
    of the text or the position before a line feed that ends it. *)
Fixpoint closing_brace (s : string) : option string :=
  match s with
  | "" => None
  | String c t =>
      if (s =? "}") || (s =? String "}" NL) then Some ""
      else option_map (String c) (closing_brace t)
  end.

(** [re.match(r'^( .*? )\{( .* )\}$', block, re.DOTALL)], the pattern
    spaced out here as under re.VERBOSE: groups 1 and 2. *)
Definition match_braces (block : string) : option (string * string) :=
  match cut "{" block with
  | Some (g1, after) =>
      match closing_brace after with
      | Some g2 => Some (g1, g2)
      | None => None
      end
  | None => None
  end.

(** [[\d\.\-\+]] *)
Definition is_value_char (ch : string) : bool :=
  is_digit ch || (ch =? ".") || (ch =? "-") || (ch =? "+").

(** [[\d\.]] *)
Definition is_tolerance_char (ch : string) : bool :=
  is_digit ch || (ch =? ".").

(** [re.match(r'^#\s*[\d\.\-\+]+', answers_block)] succeeds. *)
Definition match_numerical (answers_block : string) : bool :=
  match answers_block with
  | String h t =>
      Ascii.eqb h "#" &&
      match lstrip_chars (chars t) with
      | ch :: _ => is_value_char ch
      | [] => false
      end
  | "" => false
  end.

(** [\s*([\d\.\-\+]+)(?::([\d\.]+))?] right after a [#]: groups 1 and 2
    (empty when it takes no part) and the length of the match in bytes. *)
Definition numeric_at (t : string) : option (string * string * nat) :=
  let t1 := lstrip_chars (chars t) in
  let ws := String.length t - String.length (flatten t1) in
  let (g1, r1) := span is_value_char t1 in
  match g1 with
  | [] => None
  | _ =>
      let (g2, _) :=
        match r1 with
        | ch :: r2 =>
            if ch =? ":" then span is_tolerance_char r2 else ([], r1)
        | [] => ([], r1)
        end in
      let n1 := ws + String.length (flatten g1) in
      match g2 with
      | [] => Some (flatten g1, "", n1)
      | _ => Some (flatten g1, flatten g2, n1 + 1 + String.length (flatten g2))
      end
  end.

(** [re.findall(r'#\s*([\d\.\-\+]+)(?::([\d\.]+))?', answers_block)];
    [skip] counts the bytes of the match just found that are still to be
    passed over. *)
Fixpoint findall_numeric (skip : nat) (s : string) : list (string * string) :=
  match s with
  | "" => []
  | String c t =>
      match skip with
      | S k => findall_numeric k t
      | O =>
          if Ascii.eqb c "#" then
            match numeric_at t with
            | Some (g1, g2, n) => (g1, g2) :: findall_numeric n t
            | None => findall_numeric 0 t
            end
          else findall_numeric 0 t
      end
  end.

(** [[=~%]] *)
Definition is_marker (c : ascii) : bool :=
  Ascii.eqb c "=" || Ascii.eqb c "~" || Ascii.eqb c "%".

(** [re.split(r'([=~%])', answers_block)]: the pieces with the markers
    between them. *)
Fixpoint split_markers (s : string) : list string :=
  match s with
  | "" => [""]
  | String c t =>
      if is_marker c then "" :: String c "" :: split_markers t
      else push c (split_markers t)
  end.

(** [re.match(r'^(\d+(?:\.\d+)?)%$', s)]: group 1. *)
Definition match_percentage (s : string) : option string :=
  let (ip, r1) := span is_digit (chars s) in
  let ends r := (flatten r =? "%") || (flatten r =? String "%" NL) in
  match ip with
  | [] => None
  | _ =>
      if ends r1 then Some (flatten ip)
      else
        match r1 with
        | ch :: r2 =>
            let (fp, r3) := span is_digit r2 in
            if (ch =? ".") && negb (is_nil fp) && ends r3
            then Some (flatten ip ++ "." ++ flatten fp)
            else None
        | [] => None
        end
  end.

End Re.

(** ** Exceptions *)

(** Both are [ValueError] in the source: the one [parse] raises when no
    encoding reads the file, with the encodings tried in its message, and
    the one [float] raises on a malformed literal. *)
Inductive exn : Type :=
| DecodeError (tried : list string)
| FloatError (literal : string).

Inductive result (A : Type) : Type :=
| Ok (a : A)
| Raise (e : exn).

Arguments Ok {A} a.
Arguments Raise {A} e.

Definition bind {A B : Type} (r : result A) (k : A -> result B) : result B :=
  match r with
  | Ok a => k a
  | Raise e => Raise e
  end.

Notation "x <- r ;; k" := (bind r (fun x => k))
  (at level 61, r at next level, right associativity).

(** [float(s)] *)
Definition float (s : string) : result PyFloat.float :=
  match PyFloat.of_string s with
  | Some x => Ok x
  | None => Raise (FloatError s)
  end.

(** ** Data model: the dictionaries the parser builds *)

Inductive qtype : Set :=
| unknown | description | truefalse | numerical
| matching | multichoice | shortanswer.

(** A tolerance is [float(...)] or the integer literal [0]. *)
Inductive number : Set :=
| Int (z : Z)
| Float (x : PyFloat.float).

Inductive answer : Set :=
| Choice (text : string) (correct : bool)
         (percentage : option PyFloat.float) (feedback : option string)
| Accepted (text : string) (correct : bool)
| Numeric (value : PyFloat.float) (tolerance : number) (text : string)
| Pair (left right : string).

(** The [question] dictionary; [correct] is the key only true/false
    questions have. *)
Record Question : Set := {
  type : qtype;
  text : string;
  answers : list answer;
  category : string;
  title : option string;
  feedback : option string;
  correct : option bool
}.

Definition set_type (q : Question) (t : qtype) : Question :=
  {| type := t; text := text q; answers := answers q;
     category := category q; title := title q; feedback := feedback q;
     correct := correct q |}.

Definition set_text (q : Question) (s : string) : Question :=
  {| type := type q; text := s; answers := answers q;
     category := category q; title := title q; feedback := feedback q;
     correct := correct q |}.

Definition set_answers (q : Question) (l : list answer) : Question :=
  {| type := type q; text := text q; answers := l;
     category := category q; title := title q; feedback := feedback q;
     correct := correct q |}.

Definition set_category (q : Question) (c : string) : Question :=
  {| type := type q; text := text q; answers := answers q;
     category := c; title := title q; feedback := feedback q;
     correct := correct q |}.

Definition set_title (q : Question) (t : option string) : Question :=
  {| type := type q; text := text q; answers := answers q;
     category := category q; title := t; feedback := feedback q;
     correct := correct q |}.

Definition set_correct (q : Question) (b : bool) : Question :=
  {| type := type q; text := text q; answers := answers q;
     category := category q; title := title q; feedback := feedback q;
     correct := Some b |}.

(** ** GiftParser *)

(** [_parse_answer_with_feedback] *)
Definition _parse_answer_with_feedback (text : string) (is_correct : bool)
  : result answer :=
  match split "#" text with
  | p0 :: p1 :: more =>
      match Re.match_percentage (strip p1) with
      | Some g =>
          x <- float g ;;
          Ok (Choice (strip p0) is_correct (Some x)
                (match more with
                 | [] => None
                 | _ => Some (strip (join "#" more))
                 end))
      | None =>
          Ok (Choice (strip p0) is_correct None
                (Some (strip (join "#" (p1 :: more)))))
      end
  | _ => Ok (Choice text is_correct None None)
  end.

(** [current_marker == '=' or current_marker == '%'] *)
Definition marks_correct (marker : option string) : bool :=
  match marker with
  | Some m => (m =? "=") || (m =? "%")
  | None => false
  end.

(** [if current_marker and current_text: ... answers.append(answer_data)] *)
Definition flush (marker : option string) (current_text : string)
    (answers : list answer) : result (list answer) :=
  if match marker with Some m => truthy m | None => false end
     && truthy current_text
  then
    a <- _parse_answer_with_feedback (strip current_text)
                                     (marks_correct marker) ;;
    Ok (answers ++ [a])%list
  else Ok answers.

(** The loop over [parts] of the one-line form, and the test after it. *)
Fixpoint single_line (parts : list string) (marker : option string)
    (current_text : string) (answers : list answer) : result (list answer) :=
  match parts with
  | [] => flush marker current_text answers
  | part :: rest =>
      if in_list part ["="; "~"; "%"] then
        answers' <- flush marker current_text answers ;;
        single_line rest (Some part) "" answers'
      else single_line rest marker (current_text ++ part) answers
  end.

(** The loop over [lines] of the several-line form. *)
Fixpoint multi_line (lines : list string) (answers : list answer)
  : result (list answer) :=
  match lines with
  | [] => Ok answers
  | line :: rest =>
      let line := strip line in
      if negb (truthy line) then multi_line rest answers
      else if startswith "=" line then
        a <- _parse_answer_with_feedback (strip (drop 1 line)) true ;;
        multi_line rest (answers ++ [a])%list
      else if startswith "~" line then
        a <- _parse_answer_with_feedback (strip (drop 1 line)) false ;;
        multi_line rest (answers ++ [a])%list
      else if startswith "%" line then
        a <- _parse_answer_with_feedback (strip (drop 1 line)) true ;;
        multi_line rest (answers ++ [a])%list
      else multi_line rest answers
  end.

(** [_parse_multichoice] *)
Definition _parse_multichoice (answers_block : string) : result (list answer) :=
  if negb (contains NL answers_block)
  then single_line (Re.split_markers answers_block) None "" []
  else multi_line (split nl answers_block) [].

(** [tolerance > 0] *)
Definition positive (t : number) : bool :=
  match t with
  | Int z => (0 <? z)%Z
  | Float x => PyFloat.is_positive x
  end.

(** What an f-string prints for a tolerance. *)
Definition number_string (t : number) : string :=
  match t with
  | Int z => (if (z <? 0)%Z then "-" else "") ++ PyFloat.decimal (Z.abs z)
  | Float x => PyFloat.to_string x
  end.

(** The loop over [matches] of [_parse_numerical]. *)
Fixpoint numerical_answers (matches : list (string * string))
    (answers : list answer) : result (list answer) :=
  match matches with
  | [] => Ok answers
  | (g1, g2) :: rest =>
      value <- float g1 ;;
      tolerance <- (if truthy g2 then x <- float g2 ;; Ok (Float x)
                    else Ok (Int 0)) ;;
      numerical_answers rest
        (answers ++
         [Numeric value tolerance
            (PyFloat.to_string value ++
             (if positive tolerance then " ± " ++ number_string tolerance
              else ""))])%list
  end.

(** [_parse_numerical] *)
Definition _parse_numerical (answers_block : string) : result (list answer) :=
  numerical_answers (Re.findall_numeric 0 answers_block) [].

(** [line.split('->', 1)] when [->] occurs in [line]. *)
Definition split_arrow (line : string) : string * string :=
  match cut "->" line with
  | Some lr => lr
  | None => (line, "")
  end.

(** The loop over [lines] of [_parse_matching]. *)
Fixpoint matching_pairs (lines : list string) (matches : list answer)
  : list answer :=
  match lines with
  | [] => matches
  | line :: rest =>
      let line := strip line in
      if negb (truthy line) || negb (startswith "=" line)
      then matching_pairs rest matches
      else
        let line := strip (drop 1 line) in
        if contains "->" line then
          let (l, r) := split_arrow line in
          matching_pairs rest (matches ++ [Pair (strip l) (strip r)])%list
        else matching_pairs rest matches
  end.

(** [_parse_matching] *)
Definition _parse_matching (answers_block : string) : list answer :=
  matching_pairs (split nl answers_block) [].

(** The short-answer branch: the stripped, non-empty pieces after the
    first [=]. *)
Definition short_answers (answers_block : string) : list answer :=
  map (fun a => Accepted a true)
      (map strip
           (filter (fun part => truthy (strip part))
                   (tl (split "=" answers_block)))).

(** The title step of [_parse_question]: the title found, if any, and
    the block that goes on. *)
Definition take_title (block : string) : option string * string :=
  match Re.match_title block with
  | Some (g1, after) => (Some (strip g1), strip after)
  | None => (None, block)
  end.

(** The [[html]] step of [_parse_question]. *)
Definition drop_html (block : string) : string :=
  if contains "[html]" block then strip (replace "[html]" "" block)
  else block.

(** The chain over [answers_block] that sets the type and the answers. *)
Definition parse_answers (question : Question) (answers_block : string)
  : result Question :=
  if in_list answers_block ["T"; "F"; "TRUE"; "FALSE"] then
    Ok (set_answers
          (set_correct (set_type question truefalse)
                       (in_list (upper answers_block) ["T"; "TRUE"]))
          [])
  else if Re.match_numerical answers_block then
    a <- _parse_numerical answers_block ;;
    Ok (set_answers (set_type question numerical) a)
  else if contains "->" answers_block then
    Ok (set_answers (set_type question matching)
                    (_parse_matching answers_block))
  else if contains NL answers_block || startswith "=" answers_block
          || startswith "~" answers_block || startswith "%" answers_block then
    a <- _parse_multichoice answers_block ;;
    Ok (set_answers (set_type question multichoice) a)
  else
    Ok (set_answers (set_type question shortanswer)
                    (short_answers answers_block)).

(** [_parse_question]; [Ok None] is the [return None] of a block whose
    braces do not match. *)
Definition _parse_question (current_category : string) (block : string)
  : result (option Question) :=
  let question :=
    {| type := unknown; text := ""; answers := [];
       category := current_category; title := None; feedback := None;
       correct := None |} in
  let (t, block) := take_title block in
  let question :=
    match t with
    | Some _ => set_title question t
    | None => question
    end in
  let block := drop_html block in
  if negb (contains "{" block) then
    Ok (Some (set_answers
                (set_text (set_type question description) (strip block)) []))
  else
    match Re.match_braces block with
    | None => Ok None
    | Some (g1, g2) =>
        let question_text := strip g1 in
        let answers_block := strip g2 in
        q <- parse_answers (set_text question question_text) answers_block ;;
        Ok (Some q)
    end.

(** [_remove_comments] *)
Definition _remove_comments (content : string) : string :=
  Re.sub_block_comments 0 (Re.sub_line_comments false content).

(** The state of a parser instance. *)
Record GiftParser : Set := {
  questions : list Question;
  current_category : string
}.

(** [__init__] *)
Definition init : GiftParser :=
  {| questions := []; current_category := "Общие вопросы" |}.

Definition category_token : string := "$CATEGORY:".

(** One turn of the loop over [blocks] in [parse]. *)
Definition parse_block (self : GiftParser) (block : string)
  : result GiftParser :=
  let block := strip block in
  if negb (truthy block) then Ok self
  else if startswith category_token block then
    Ok {| questions := questions self;
          current_category := strip (replace category_token "" block) |}
  else if startswith "$" block then Ok self
  else
    q <- _parse_question (current_category self) block ;;
    match q with
    | Some question =>
        Ok {| questions :=
                (questions self
                 ++ [set_category question (current_category self)])%list;
              current_category := current_category self |}
    | None => Ok self
    end.

(** The loop over [blocks]. *)
Fixpoint parse_blocks (self : GiftParser) (blocks : list string)
  : result GiftParser :=
  match blocks with
  | [] => Ok self
  | block :: rest =>
      self' <- parse_block self block ;;
      parse_blocks self' rest
  end.

(** [parse] from the decoded content on. *)
Definition parse_content (self : GiftParser) (content : string)
  : result (list Question) :=
  let content := _remove_comments content in
  let blocks := Re.split_blank 0 content in
  self' <- parse_blocks self blocks ;;
  Ok (questions self').

(** The encodings [parse] tries, in order. *)
Definition encodings : list string :=
  ["utf-8"; "utf-8-sig"; "cp1251"; "windows-1251"; "latin-1"].

Section Reading.

(** [open(file_path, 'r', encoding=e)] and [f.read()] on a file of the
    given bytes: the text, or [None] for [UnicodeDecodeError] and
    [LookupError].  The codecs belong to the Python runtime. *)
Variable read : string -> list Byte.byte -> option string.

(** The loop over [encodings]: the first text read. *)
Fixpoint first_read (candidates : list string) (file : list Byte.byte)
  : option string :=
  match candidates with
  | [] => None
  | encoding :: rest =>
      match read encoding file with
      | Some content => Some content
      | None => first_read rest file
      end
  end.

(** The reading part of [parse]. *)
Definition read_content (file : list Byte.byte) : result string :=
  match first_read encodings file with
  | Some content => Ok content
  | None => Raise (DecodeError encodings)
  end.

(** [parse] *)
Definition parse (self : GiftParser) (file : list Byte.byte)
  : result (list Question) :=
  content <- read_content file ;;
  parse_content self content.

End Reading.

(** The block after the title and [[html]] steps of [_parse_question]. *)
Definition body (block : string) : string :=
  drop_html (snd (take_title block)).

(** The [answers_block] of a block that reaches the chain over it. *)
Definition answers_block_of (block : string) : option string :=
  if contains "{" (body block) then
    match Re.match_braces (body block) with
    | Some (_, g2) => Some (strip g2)
    | None => None
    end
  else None.

(** The exact value of a finite float is the integer [z]. *)
Definition is_integer (x : PyFloat.float) (z : Z) : Prop :=
  match x with
  | PyFloat.Finite neg m e =>
      let (num, den) := PyFloat.ratio m e in
      ((if neg then - num else num) = z * den)%Z
  | PyFloat.Inf _ => False
  end.

(** Every character of [s] satisfies [p]. *)
Definition all_chars (p : string -> bool) (s : string) : bool :=
  forallb p (chars s).

(** Both groups of a match of [_parse_numerical] are literals [float]
    takes; an empty group 2 is never converted. *)
Definition literals_ok (m : string * string) : bool :=
  let (g1, g2) := m in
  match PyFloat.of_string g1 with
  | Some _ =>
      negb (truthy g2) ||
      match PyFloat.of_string g2 with Some _ => true | None => false end
  | None => false
  end.

(** [block] sets the category: what [parse] tests after stripping it. *)
Definition is_category_directive (block : string) : bool :=
  startswith category_token (strip block).

(** The display text of a numerical answer: the value, then the
    tolerance after a plus-minus sign when it is above zero. *)
Definition display (value : PyFloat.float) (tolerance : number) : string :=
  PyFloat.to_string value ++
  (if positive tolerance then " ± " ++ number_string tolerance else "").

(** The order of the tests over the payload, first match wins:
    true/false, numerical, matching, multiple choice, short answer. *)
Definition first_match (answers_block : string) : qtype :=
  if in_list answers_block ["T"; "F"; "TRUE"; "FALSE"] then truefalse
  else if Re.match_numerical answers_block then numerical
  else if contains "->" answers_block then matching
  else if contains NL answers_block || startswith "=" answers_block
          || startswith "~" answers_block || startswith "%" answers_block
  then multichoice
  else shortanswer.

(** The six types a parsed question can have. *)
Definition known_type (q : Question) : Prop :=
  In (type q)
     [description; truefalse; numerical; matching; multichoice; shortanswer].

(** A reader for worked documents: only the last encoding of the list
    accepts, and it reads each byte as the character of that code
    point. *)
Definition latin1_only (encoding : string) (file : list Byte.byte)
  : option string :=
  if encoding =? "latin-1"
  then Some (flatten (map (fun b => utf8 (Byte.to_N b)) file))
  else None.

(** The category a directive block sets. *)
Definition directive_category (block : string) : string :=
  strip (replace category_token "" (strip block)).

(** ** PDFGenerator *)

(** [_clean_html] *)
Definition _clean_html (text : string) : string :=
  let text := replace "\:" ":" text in
  let text := replace "\=" "=" text in
  let text := replace "\{" "{" text in
  let text := replace "\}" "}" text in
  let text := replace "<p>" "" text in
  let text := replace "</p>" "<br/>" text in
  let text := replace "&nbsp;" " " text in
  let text := replace "&" "&amp;" text in
  let text := replace "<" "&lt;" text in
  let text := replace ">" "&gt;" text in
  let text := replace "&lt;b&gt;" "<b>" text in
  let text := replace "&lt;/b&gt;" "</b>" text in
  let text := replace "&lt;i&gt;" "<i>" text in
  let text := replace "&lt;/i&gt;" "</i>" text in
  let text := replace "&lt;br/&gt;" "<br/>" text in
  let text := replace "&lt;br&gt;" "<br/>" text in
  strip text.

(** ** Notions the further properties are stated with *)

(** The answer has the keys the generator reads for a question of the
    type: text, correct, percentage and feedback for a choice; text and
    a true correct for a short answer, whose text is never empty; value,
    tolerance and text for a number; left and right for a pair. *)
Definition fits (t : qtype) (a : answer) : bool :=
  match t, a with
  | multichoice, Choice _ _ _ _ => true
  | shortanswer, Accepted s b => b && truthy s
  | numerical, Numeric _ _ _ => true
  | matching, Pair _ _ => true
  | _, _ => false
  end.

(** [s] has no white space at either end. *)
Definition trimmed (s : string) : Prop := strip s = s.

(** The sign bit is clear: the float is zero or above. *)
Definition unsigned (x : PyFloat.float) : bool :=
  match x with
  | PyFloat.Finite neg _ _ => negb neg
  | PyFloat.Inf neg => negb neg
  end.

(** The character [c] does not occur in [s]. *)
Fixpoint lacks (c : ascii) (s : string) : bool :=
  match s with
  | String x t => negb (Ascii.eqb x c) && lacks c t
  | "" => true
  end.

(** The five tags [_clean_html] lets through. *)
Definition tags : list string := ["<b>"; "</b>"; "<i>"; "</i>"; "<br/>"].

(** Angle brackets occur in [s] only as the brackets of the [tags]. *)
Inductive tagged : string -> Prop :=
| tagged_empty : tagged ""
| tagged_char c s :
    Ascii.eqb c "<" = false -> Ascii.eqb c ">" = false ->
    tagged s -> tagged (String c s)
| tagged_tag t s : In t tags -> tagged s -> tagged (t ++ s).

(** The texts of an answer have no white space at either end. *)
Definition answer_trimmed (a : answer) : Prop :=
  match a with
  | Choice t _ _ f => trimmed t /\ forall x, f = Some x -> trimmed x
  | Accepted t _ => trimmed t
  | Numeric _ _ _ => True
  | Pair l r => trimmed l /\ trimmed r
  end.

(** The characters [l] do not start with white space. *)
Definition starts_solid (l : list string) : Prop :=
  match l with
  | ch :: _ => is_space ch = false
  | [] => True
  end.

(** A tolerance is the integer 0 or a float that is not negative. *)
Definition tolerance_ok (t : number) : bool :=
  match t with
  | Int z => (z =? 0)%Z
  | Float x => unsigned x
  end.

(** The result of [_parse_question] with the title set to [t]. *)
Definition with_title (t : option string) (r : result (option Question))
  : result (option Question) :=
  match r with
  | Ok (Some q) => Ok (Some (set_title q t))
  | other => other
  end.

(** The category [c] is the one the parser [self] starts from or the
    one a directive among [blocks] sets. *)
Definition category_from (self : GiftParser) (blocks : list string)
    (c : string) : Prop :=
  c = current_category self \/
  exists b, In b blocks /\ is_category_directive b = true /\
            c = directive_category b.

(** ** The shape of a list of characters *)

(** Every byte of [s] continues a character. *)
Fixpoint continues (s : string) : bool :=
  match s with
  | String c t => is_continuation c && continues t
  | "" => true
  end.

(** [g] is what [chars] makes a character of: one byte, or a byte beyond
    ASCII and the bytes that continue it. *)
Definition is_char (g : string) : bool :=
  match g with
  | "" => false
  | String c "" => true
  | String c t => is_high c && continues t
  end.

(** [g] is an ASCII character. *)
Definition is_ascii (g : string) : bool :=
  match g with
  | String c "" => negb (is_high c)
  | _ => false
  end.

(** The first character of [l] starts with a byte that continues one. *)
Definition opens (l : list string) : bool :=
  match l with
  | String d _ :: _ => is_continuation d
  | _ => false
  end.

(** [l] is a list [chars] can give: each character is one, and no byte
    that continues a character is left in front of its own. *)
Fixpoint chars_ok (l : list string) : bool :=
  match l with
  | [] => true
  | g :: t => is_char g && (negb (opens t) || is_ascii g) && chars_ok t
  end.

(** * Properties *)

(** ** Worked blocks *)

(** C1.  The one-line form with percentages, [=Correct#100% ~Wrong#0%]:
    the split on the markers also cuts at each percent sign, so the
    percentages are lost into the feedback and a third answer with an
    empty text appears between the two; the claim's two answers with
    percentages 100 and 0 are not what comes out. *)
Theorem C1_percent_sign_cuts_one_line_answers :
  forall c,
    _parse_question c "Q {=Correct#100% ~Wrong#0%}" =
    Ok (Some {| type := multichoice; text := "Q";
                answers := [Choice "Correct" true None (Some "100");
                            Choice "" true None None;
                            Choice "Wrong" false None (Some "0")];
                category := c; title := None; feedback := None;
                correct := None |}).
Proof. intros c. reflexivity. Qed.

(** C2.  The payload [=Paris =London] starts with a marker, so the chain
    stops at the multiple-choice branch and never reaches the
    short-answer one; the type is multichoice, not the claim's
    shortanswer. *)
Theorem C2_equals_list_is_multichoice :
  forall c,
    _parse_question c "Q {=Paris =London}" =
    Ok (Some {| type := multichoice; text := "Q";
                answers := [Choice "Paris" true None None;
                            Choice "London" true None None];
                category := c; title := None; feedback := None;
                correct := None |}).
Proof. intros c. reflexivity. Qed.

(** C3.  The four upper-case spellings give a true/false question, with
    [correct] set for T and TRUE; the lower-case [true] is not in the
    list the payload is looked up in and ends as a short answer with no
    answers and no [correct]. *)
Theorem C3_lower_case_true_is_not_truefalse :
  forall c,
    let tf b := Ok (Some {| type := truefalse; text := "Q"; answers := [];
                            category := c; title := None; feedback := None;
                            correct := Some b |}) in
    _parse_question c "Q {T}" = tf true /\
    _parse_question c "Q {TRUE}" = tf true /\
    _parse_question c "Q {F}" = tf false /\
    _parse_question c "Q {FALSE}" = tf false /\
    _parse_question c "Q {true}" =
    Ok (Some {| type := shortanswer; text := "Q"; answers := [];
                category := c; title := None; feedback := None;
                correct := None |}).
Proof. intros c. repeat split; reflexivity. Qed.

(** ** White space and digits beyond ASCII *)

(** A no-break space (U+00A0) or an ideographic space (U+3000) at an end
    is stripped as a space is; a letter whose last byte is that of the
    no-break space (the Cyrillic Р, bytes D0 A0) is not touched. *)
Lemma strip_beyond_ascii :
  strip (utf8 0xA0 ++ "a b" ++ utf8 0x3000 ++ NL) = "a b" /\
  strip (" Р" ++ utf8 0x2028) = "Р" /\
  chars "Р٣ a" = ["Р"; "٣"; " "; "a"].
Proof. repeat split; vm_compute; reflexivity. Qed.

(** Digits of other scripts are digits for the patterns and for [float]:
    an Arabic-Indic three is the number 3, with a sign in front as well,
    and three of them around two points are a literal [float] rejects. *)
Lemma digits_beyond_ascii :
  _parse_numerical "#-٣" =
  Ok [Numeric (PyFloat.Finite true 6755399441055744 (-51)) (Int 0) "-3.0"] /\
  _parse_question "c" "Q {#٣.٣.٣}" = Raise (FloatError "٣.٣.٣") /\
  _parse_answer_with_feedback "a#٥٠%" true =
  Ok (Choice "a" true (Some (PyFloat.Finite false 7036874417766400 (-47)))
             None) /\
  first_match ("#٣ -> a" ++ NL ++ "=b -> c") = numerical.
Proof. repeat split; vm_compute; reflexivity. Qed.

(** White space beyond ASCII around a block, a payload, a directive, a
    line of pairs or a percentage is taken off like a space. *)
Lemma blocks_beyond_ascii :
  parse_block init ("Q {T}" ++ utf8 0xA0) = parse_block init "Q {T}" /\
  _parse_question "c" ("Q {" ++ utf8 0xA0 ++ "T}") =
  _parse_question "c" "Q {T}" /\
  parse_block init (utf8 0xA0 ++ "$CATEGORY:A" ++ utf8 0xA0) =
  Ok {| questions := []; current_category := "A" |} /\
  _parse_matching ("=x -> y" ++ NL ++ utf8 0xA0 ++ "=A -> 1") =
  [Pair "x" "y"; Pair "A" "1"] /\
  _parse_answer_with_feedback ("a#" ++ utf8 0xA0 ++ "50%") true =
  _parse_answer_with_feedback "a#50%" true /\
  _parse_question "c" ("::" ++ utf8 0xA0 ++ "x::Q {T}") =
  _parse_question "c" "::x::Q {T}" /\
  _clean_html ("a" ++ utf8 0xA0) = "a".
Proof. repeat split; vm_compute; reflexivity. Qed.

(** ** The result monad *)

Lemma bind_Ok_inv {A B : Type} (r : result A) (k : A -> result B) (b : B) :
  bind r k = Ok b -> exists a, r = Ok a /\ k a = Ok b.
Proof.
  destruct r as [a|e]; simpl; intros H; [exists a; auto | discriminate].
Qed.

Lemma bind_Raise_inv {A B : Type} (r : result A) (k : A -> result B) e :
  bind r k = Raise e -> r = Raise e \/ exists a, r = Ok a /\ k a = Raise e.
Proof.
  destruct r as [a|e']; simpl; intros H.
  - right. exists a. auto.
  - left. now inversion H.
Qed.

(** ** Strings *)

Lemma append_assoc (a b c : string) : (a ++ b) ++ c = a ++ (b ++ c).
Proof. induction a as [|x a IH]; simpl; [reflexivity | now rewrite IH]. Qed.

(** ** Characters *)

Lemma flatten_app (a b : list string) :
  flatten (a ++ b) = flatten a ++ flatten b.
Proof.
  induction a as [|g a IH]; simpl; [reflexivity|].
  now rewrite IH, append_assoc.
Qed.

Lemma flatten_chars (s : string) : flatten (chars s) = s.
Proof.
  induction s as [|c s IH]; simpl; [reflexivity|].
  destruct (chars s) as [|[|d ch] rest]; simpl in *; try now rewrite <- IH.
  destruct (is_high c && is_continuation d); simpl; now rewrite <- IH.
Qed.

Lemma continuation_high (c : ascii) :
  is_continuation c = true -> is_high c = true.
Proof. unfold is_continuation, is_high. intros H. now apply andb_true_iff in H. Qed.

(** An ASCII byte is a character of its own. *)
Lemma chars_ascii (c : ascii) (t : string) :
  is_high c = false -> chars (String c t) = String c "" :: chars t.
Proof.
  intros H. simpl. rewrite H. simpl.
  now destruct (chars t) as [|[|d ch] rest].
Qed.

Lemma is_char_cons (c d : ascii) (ch : string) :
  is_high c = true -> is_continuation d = true ->
  is_char (String d ch) = true -> is_char (String c (String d ch)) = true.
Proof.
  intros Hc Hd H. cbn [is_char continues]. rewrite Hc, Hd.
  destruct ch as [|e ch]; [reflexivity|].
  cbn [is_char] in H. now apply andb_true_iff in H as [_ ->].
Qed.

Lemma is_ascii_high (d : ascii) (ch : string) :
  is_high d = true -> is_ascii (String d ch) = false.
Proof. intros H. destruct ch; simpl; [now rewrite H | reflexivity]. Qed.

Lemma chars_ok_chars (s : string) : chars_ok (chars s) = true.
Proof.
  induction s as [|c s IH]; [reflexivity|]. cbn [chars].
  destruct (chars s) as [|[|d ch] rest]; [reflexivity | discriminate |].
  cbn [chars_ok] in IH.
  apply andb_true_iff in IH as [IH Hr]. apply andb_true_iff in IH as [Hg Hb].
  destruct (is_high c) eqn:Hc; cbn [andb].
  - destruct (is_continuation d) eqn:Hd.
    + cbn [chars_ok]. rewrite (is_char_cons c d ch Hc Hd Hg), Hr.
      rewrite (is_ascii_high d ch (continuation_high d Hd)) in Hb.
      rewrite orb_false_r in Hb. now rewrite Hb.
    + cbn [chars_ok]. rewrite Hg, Hb, Hr. cbn [opens]. now rewrite Hd.
  - cbn [chars_ok]. rewrite Hg, Hb, Hr. cbn [is_ascii is_char]. rewrite Hc.
    now rewrite orb_true_r.
Qed.

Lemma chars_single (c : ascii) (r : string) :
  (opens (chars r) = false \/ is_high c = false) ->
  chars (String c r) = String c "" :: chars r.
Proof.
  intros H. simpl. destruct (chars r) as [|[|d ch] rest]; try reflexivity.
  simpl in H. destruct H as [-> | ->]; [now rewrite andb_false_r | reflexivity].
Qed.

Lemma chars_continues (u r : string) :
  u <> "" -> continues u = true -> opens (chars r) = false ->
  chars (u ++ r) = u :: chars r.
Proof.
  induction u as [|d u IH]; [congruence|]. intros _ Hu Ho.
  simpl in Hu. apply andb_true_iff in Hu as [Hd Hu].
  destruct u as [|e u].
  - simpl append. apply chars_single. now left.
  - change ((String d (String e u)) ++ r) with (String d (String e u ++ r)).
    cbn [chars]. rewrite (IH ltac:(discriminate) Hu Ho).
    simpl in Hu. apply andb_true_iff in Hu as [He _].
    now rewrite (continuation_high d Hd), He.
Qed.

(** Cutting a text into its characters undoes putting them together. *)
Lemma chars_flatten (l : list string) :
  chars_ok l = true -> chars (flatten l) = l.
Proof.
  induction l as [|g l IH]; [reflexivity|]. cbn [chars_ok flatten]. intros H.
  apply andb_true_iff in H as [H Hl]. apply andb_true_iff in H as [Hg Hb].
  specialize (IH Hl).
  destruct g as [|c [|d ch]]; [discriminate | |].
  - change (String c "" ++ flatten l) with (String c (flatten l)).
    rewrite chars_single, IH; [reflexivity|]. rewrite IH.
    apply orb_true_iff in Hb as [Hb | Hb].
    + left. now apply negb_true_iff.
    + right. simpl in Hb. now apply negb_true_iff.
  - simpl in Hb. rewrite orb_false_r in Hb. apply negb_true_iff in Hb.
    cbn [is_char] in Hg. apply andb_true_iff in Hg as [Hc Hu].
    change (String c (String d ch) ++ flatten l)
      with (String c (String d ch ++ flatten l)).
    cbn [chars].
    rewrite (chars_continues (String d ch) (flatten l) ltac:(discriminate) Hu)
      by now rewrite IH.
    rewrite IH.
    simpl in Hu. apply andb_true_iff in Hu as [Hd _]. now rewrite Hc, Hd.
Qed.

Lemma chars_ok_app (a b : list string) :
  chars_ok (a ++ b) = true -> chars_ok a = true /\ chars_ok b = true.
Proof.
  induction a as [|g a IH]; simpl; [auto|]. intros H.
  apply andb_true_iff in H as [H Hl]. apply andb_true_iff in H as [Hg Hb].
  destruct (IH Hl) as [Ha Hb']. split; [|assumption].
  rewrite Hg, Ha. simpl. rewrite andb_true_r.
  destruct a as [|h a]; [reflexivity | exact Hb].
Qed.

Lemma lstrip_chars_split (l : list string) :
  exists p, l = (p ++ lstrip_chars l)%list /\ forallb is_space p = true.
Proof.
  induction l as [|ch l IH]; simpl.
  - now exists [].
  - destruct (is_space ch) eqn:Hc.
    + destruct IH as (p & Hp & Hs). exists (ch :: p). simpl.
      rewrite Hc, Hs. split; [now rewrite <- Hp | reflexivity].
    + now exists [].
Qed.

Lemma rstrip_chars_split (l : list string) :
  exists q, l = (rstrip_chars l ++ q)%list /\ forallb is_space q = true.
Proof.
  induction l as [|ch l IH]; simpl.
  - now exists [].
  - destruct IH as (q & Hq & Hs).
    destruct (rstrip_chars l) as [|r rs].
    + destruct (is_space ch) eqn:Hc.
      * exists (ch :: q). simpl in *. subst l. now rewrite Hc, Hs.
      * exists q. simpl in *. now subst l.
    + exists q. simpl in *. split; [now rewrite <- Hq | assumption].
Qed.

Lemma chars_ok_lstrip (l : list string) :
  chars_ok l = true -> chars_ok (lstrip_chars l) = true.
Proof.
  intros H. destruct (lstrip_chars_split l) as (p & Hp & _).
  rewrite Hp in H. now apply chars_ok_app in H.
Qed.

Lemma chars_ok_rstrip (l : list string) :
  chars_ok l = true -> chars_ok (rstrip_chars l) = true.
Proof.
  intros H. destruct (rstrip_chars_split l) as (q & Hq & _).
  rewrite Hq in H. now apply chars_ok_app in H.
Qed.

Lemma byte_nat (n : N) :
  (n < 256)%N -> nat_of_ascii (ascii_of_N n) = N.to_nat n.
Proof.
  intros H. rewrite <- (N2Nat.id n) at 1.
  change (ascii_of_N (N.of_nat (N.to_nat n))) with (ascii_of_nat (N.to_nat n)).
  apply nat_ascii_embedding. lia.
Qed.

Lemma lead_byte (n : N) :
  (192 <= n < 256)%N ->
  is_high (ascii_of_N n) = true /\ is_continuation (ascii_of_N n) = false.
Proof.
  intros H. unfold is_high, is_continuation. rewrite byte_nat by lia.
  split.
  - apply Nat.leb_le. lia.
  - apply andb_false_iff. right. apply Nat.ltb_ge. lia.
Qed.

Lemma continuation_byte (n : N) :
  (n < 64)%N -> is_continuation (ascii_of_N (128 + n)) = true.
Proof.
  intros H. unfold is_continuation. rewrite byte_nat by lia.
  apply andb_true_iff. split; [apply Nat.leb_le | apply Nat.ltb_lt]; lia.
Qed.

(** The bytes of a code point are one character, and its first byte
    continues no other. *)
Lemma utf8_char (cp : N) :
  (cp < 0x110000)%N ->
  is_char (utf8 cp) = true /\ opens [utf8 cp] = false.
Proof.
  intros H. unfold utf8.
  assert (H64 : forall n, (n mod 64 < 64)%N) by (intros n; now apply N.mod_lt).
  destruct (N.ltb_spec cp 0x80) as [H1|H1].
  { split; [reflexivity|]. cbn [opens]. unfold is_continuation.
    rewrite byte_nat by lia. apply andb_false_iff. left.
    apply Nat.leb_gt. lia. }
  destruct (N.ltb_spec cp 0x800) as [H2|H2].
  { assert (cp / 64 < 32)%N by (apply N.Div0.div_lt_upper_bound; lia).
    pose proof (N.le_0_l (cp / 64)).
    destruct (lead_byte (0xC0 + cp / 64)) as [Hh Hc]; [lia|].
    cbn [append is_char continues opens].
    now rewrite Hh, Hc, continuation_byte by apply H64. }
  destruct (N.ltb_spec cp 0x10000) as [H3|H3].
  { assert (cp / 4096 < 16)%N by (apply N.Div0.div_lt_upper_bound; lia).
    pose proof (N.le_0_l (cp / 4096)).
    destruct (lead_byte (0xE0 + cp / 4096)) as [Hh Hc]; [lia|].
    cbn [append is_char continues opens].
    now rewrite Hh, Hc, !continuation_byte by apply H64. }
  assert (cp / 262144 < 5)%N by (apply N.Div0.div_lt_upper_bound; lia).
  pose proof (N.le_0_l (cp / 262144)).
  destruct (lead_byte (0xF0 + cp / 262144)) as [Hh Hc]; [lia|].
  cbn [append is_char continues opens].
  now rewrite Hh, Hc, !continuation_byte by apply H64.
Qed.

Lemma chars_ok_utf8 (cps : list N) :
  Forall (fun cp => (cp < 0x110000)%N) cps ->
  chars_ok (map utf8 cps) = true.
Proof.
  induction 1 as [|cp cps Hcp Hcps IH]; [reflexivity|].
  cbn [map chars_ok]. rewrite IH, (proj1 (utf8_char cp Hcp)).
  destruct Hcps as [|cp' cps' Hcp' _]; [reflexivity|].
  cbn [map]. change (opens (utf8 cp' :: map utf8 cps')) with (opens [utf8 cp']).
  now rewrite (proj2 (utf8_char cp' Hcp')).
Qed.

(** The characters of a text are its code points: [chars] cuts the
    UTF-8 bytes of a Python string where its characters end. *)
Lemma chars_utf8 (cps : list N) :
  Forall (fun cp => (cp < 0x110000)%N) cps ->
  chars (flatten (map utf8 cps)) = map utf8 cps.
Proof. intros H. apply chars_flatten, chars_ok_utf8, H. Qed.

(** The characters of a stripped text are the stripped characters. *)
Lemma chars_strip (s : string) :
  chars (strip s) = rstrip_chars (lstrip_chars (chars s)).
Proof.
  apply chars_flatten, chars_ok_rstrip, chars_ok_lstrip, chars_ok_chars.
Qed.

(** What [strip] takes away is white space at either end. *)
Lemma strip_split (s : string) :
  exists p q, s = flatten p ++ strip s ++ flatten q /\
              forallb is_space p = true /\ forallb is_space q = true.
Proof.
  destruct (lstrip_chars_split (chars s)) as (p & Hp & Hps).
  destruct (rstrip_chars_split (lstrip_chars (chars s))) as (q & Hq & Hqs).
  exists p, q. repeat split; auto.
  unfold strip. rewrite <- flatten_app, <- Hq, <- flatten_app, <- Hp.
  symmetry. apply flatten_chars.
Qed.

Lemma in_list_In (s : string) (l : list string) :
  in_list s l = true -> In s l.
Proof.
  unfold in_list. intros H. apply existsb_exists in H as (x & Hx & He).
  apply String.eqb_eq in He. now subst.
Qed.

(** A property checked on the white space holds of each. *)
Lemma spaces_all (P : string -> bool) (ch : string) :
  forallb P spaces = true -> is_space ch = true -> P ch = true.
Proof.
  intros HP H. apply in_list_In in H.
  exact (proj1 (forallb_forall P spaces) HP ch H).
Qed.

Lemma index_of_In (ch : string) (l : list string) i :
  index_of ch l = Some i -> In ch l.
Proof.
  revert i. induction l as [|x l IH]; simpl; intros i H; [discriminate|].
  destruct (String.eqb_spec ch x) as [->|_]; [now left|].
  destruct (index_of ch l) as [j|]; [|discriminate]. right. eauto.
Qed.

(** A property checked on the decimal digits holds of each. *)
Lemma digits_all (P : string -> bool) (ch : string) :
  forallb P digits = true -> is_digit ch = true -> P ch = true.
Proof.
  intros HP H. unfold is_digit in H.
  destruct (index_of ch digits) as [i|] eqn:Hi; [|discriminate].
  exact (proj1 (forallb_forall P digits) HP ch (index_of_In _ _ _ Hi)).
Qed.

Lemma span_spec (p : string -> bool) (l a b : list string) :
  span p l = (a, b) ->
  l = (a ++ b)%list /\ forallb p a = true /\
  match b with ch :: _ => p ch = false | [] => True end.
Proof.
  revert a b. induction l as [|c l IH]; simpl; intros a b H.
  - inversion H; subst. auto.
  - destruct (p c) eqn:Hc.
    + destruct (span p l) as [a' b'] eqn:Hs. inversion H; subst.
      destruct (IH a' b eq_refl) as (-> & Ha & Hb).
      simpl. rewrite Hc. auto.
    + inversion H; subst. simpl. auto.
Qed.

Lemma span_append (p : string -> bool) (a b : list string) :
  forallb p a = true ->
  match b with ch :: _ => p ch = false | [] => True end ->
  span p (a ++ b)%list = (a, b).
Proof.
  induction a as [|c a IH]; simpl; intros Ha Hb.
  - destruct b as [|c b]; [reflexivity | simpl; now rewrite Hb].
  - apply andb_true_iff in Ha as [Hc Ha]. rewrite Hc, (IH Ha Hb). reflexivity.
Qed.
Lemma digit_not_sign (ch : string) :
  is_digit ch = true ->
  (ch =? "-") = false /\ (ch =? "+") = false /\ (ch =? ".") = false.
Proof.
  intros H.
  assert (Hall := digits_all
    (fun d => negb (d =? "-") && negb (d =? "+") && negb (d =? "."))
    ch eq_refl H).
  cbv beta in Hall.
  apply andb_true_iff in Hall as [Hall H3].
  apply andb_true_iff in Hall as [H1 H2].
  now rewrite negb_true_iff in H1, H2, H3.
Qed.

(** A run of digits is a literal [float] takes. *)
Lemma of_string_digits (ip : list string) :
  ip <> [] -> forallb is_digit ip = true -> chars_ok ip = true ->
  exists x, PyFloat.of_string (flatten ip) = Some x.
Proof.
  intros Hne Hip Hok.
  destruct ip as [|c ip]; [congruence|].
  assert (Hip' := Hip).
  cbn [forallb] in Hip. apply andb_true_iff in Hip as [Hc Hip].
  destruct (digit_not_sign c Hc) as (Hm & Hp & _).
  unfold PyFloat.of_string.
  rewrite (chars_flatten _ Hok). cbv beta iota. rewrite Hm, Hp.
  rewrite <- (app_nil_r (c :: ip)).
  rewrite span_append; [| exact Hip' | exact I].
  simpl. eexists. reflexivity.
Qed.

(** So are two runs of digits around a point. *)
Lemma of_string_point (ip fp : list string) :
  ip <> [] -> fp <> [] ->
  forallb is_digit ip = true -> forallb is_digit fp = true ->
  chars_ok (ip ++ "." :: fp) = true ->
  exists x, PyFloat.of_string (flatten ip ++ "." ++ flatten fp) = Some x.
Proof.
  intros Hne Hf Hip Hfp Hok.
  destruct ip as [|c ip]; [congruence|].
  assert (Hip' := Hip).
  cbn [forallb] in Hip. apply andb_true_iff in Hip as [Hc Hip].
  destruct (digit_not_sign c Hc) as (Hm & Hp & _).
  unfold PyFloat.of_string.
  replace (flatten (c :: ip) ++ "." ++ flatten fp)
    with (flatten ((c :: ip) ++ "." :: fp))
    by (rewrite flatten_app; reflexivity).
  rewrite (chars_flatten _ Hok).
  change ((c :: ip) ++ "." :: fp)%list with (c :: (ip ++ "." :: fp))%list.
  cbv beta iota. rewrite Hm, Hp.
  change (c :: (ip ++ "." :: fp))%list with ((c :: ip) ++ "." :: fp)%list.
  rewrite span_append; [| exact Hip' | reflexivity].
  cbv beta iota. change ("." =? ".") with true. cbv iota.
  assert (Hs : span is_digit fp = (fp, [])).
  { rewrite <- (app_nil_r fp) at 1. now apply span_append. }
  rewrite Hs. cbv beta iota.
  destruct fp as [|f fp]; [congruence|]. simpl. eexists. reflexivity.
Qed.

(** What the percentage pattern captures is a literal [float] takes. *)
Lemma match_percentage_float (s g : string) :
  Re.match_percentage s = Some g -> exists x, float g = Ok x.
Proof.
  unfold Re.match_percentage, float.
  destruct (span is_digit (chars s)) as [ip r1] eqn:Hs.
  destruct (span_spec _ _ _ _ Hs) as (Hl & Hip & _).
  assert (Hok := chars_ok_chars s). rewrite Hl in Hok.
  destruct ip as [|i0 ip]; [discriminate|].
  assert (Hip' : i0 :: ip <> []) by discriminate.
  destruct ((flatten r1 =? "%") || (flatten r1 =? String "%" NL)).
  - intros H; inversion H; subst g.
    destruct (of_string_digits _ Hip' Hip (proj1 (chars_ok_app _ _ Hok)))
      as [x Hx].
    cbn [flatten] in Hx. rewrite Hx. eauto.
  - destruct r1 as [|c r2]; [discriminate|].
    destruct (span is_digit r2) as [fp r3] eqn:Hf.
    destruct (span_spec _ _ _ _ Hf) as (Hl2 & Hfp & _).
    destruct ((c =? ".") && negb (is_nil fp) &&
              ((flatten r3 =? "%") || (flatten r3 =? String "%" NL))) eqn:Hc;
      [|discriminate].
    intros H; inversion H; subst g.
    apply andb_true_iff in Hc as [Hc _]. apply andb_true_iff in Hc as [Hd Hc].
    apply String.eqb_eq in Hd. subst c r2.
    assert (Hfp' : fp <> []) by (intros ->; discriminate).
    assert (Hok' : chars_ok ((i0 :: ip) ++ "." :: fp) = true).
    { replace ((i0 :: ip) ++ "." :: fp ++ r3)%list
        with (((i0 :: ip) ++ "." :: fp) ++ r3)%list in Hok
        by (rewrite <- app_assoc; reflexivity).
      now apply chars_ok_app in Hok. }
    destruct (of_string_point _ fp Hip' Hfp' Hip Hfp Hok') as [x Hx].
    cbn [flatten] in Hx. simpl append in Hx. simpl append. rewrite Hx. eauto.
Qed.

(** The answer sub-parser returns for every text. *)
Lemma parse_answer_with_feedback_total (t : string) (b : bool) :
  exists a, _parse_answer_with_feedback t b = Ok a.
Proof.
  unfold _parse_answer_with_feedback.
  destruct (split "#" t) as [|p0 [|p1 more]]; eauto.
  destruct (Re.match_percentage (strip p1)) as [g|] eqn:Hg; eauto.
  destruct (match_percentage_float _ _ Hg) as [x Hx]. rewrite Hx. simpl. eauto.
Qed.

Lemma flush_total marker t answers :
  exists l, flush marker t answers = Ok l.
Proof.
  unfold flush.
  destruct (_ && _); eauto.
  destruct (parse_answer_with_feedback_total (strip t) (marks_correct marker))
    as [a Ha].
  rewrite Ha. simpl. eauto.
Qed.

Lemma single_line_total parts :
  forall marker t answers, exists l, single_line parts marker t answers = Ok l.
Proof.
  induction parts as [|part rest IH]; intros marker t answers;
    cbn [single_line].
  - apply flush_total.
  - destruct (in_list part ["="; "~"; "%"]).
    + destruct (flush_total marker t answers) as [l Hl]. rewrite Hl. simpl.
      apply IH.
    + apply IH.
Qed.

Lemma multi_line_total lines :
  forall answers, exists l, multi_line lines answers = Ok l.
Proof.
  induction lines as [|line rest IH]; intros answers; cbn [multi_line];
    eauto.
  destruct (negb (truthy (strip line))); [apply IH|].
  destruct (startswith "=" (strip line)).
  { destruct (parse_answer_with_feedback_total
                (strip (drop 1 (strip line))) true) as [a Ha].
    rewrite Ha. simpl. apply IH. }
  destruct (startswith "~" (strip line)).
  { destruct (parse_answer_with_feedback_total
                (strip (drop 1 (strip line))) false) as [a Ha].
    rewrite Ha. simpl. apply IH. }
  destruct (startswith "%" (strip line)); [|apply IH].
  destruct (parse_answer_with_feedback_total
              (strip (drop 1 (strip line))) true) as [a Ha].
  rewrite Ha. simpl. apply IH.
Qed.

Lemma parse_multichoice_total (p : string) :
  exists l, _parse_multichoice p = Ok l.
Proof.
  unfold _parse_multichoice.
  destruct (negb (contains NL p)).
  - apply single_line_total.
  - apply multi_line_total.
Qed.

(** ** Numerical answers *)

Lemma numerical_answers_Ok ms :
  forall acc, forallb literals_ok ms = true ->
              exists l, numerical_answers ms acc = Ok l.
Proof.
  induction ms as [|[g1 g2] ms IH]; intros acc H; cbn [numerical_answers];
    eauto.
  cbn [forallb] in H. apply andb_true_iff in H as [H1 H2].
  unfold literals_ok in H1. unfold float.
  destruct (PyFloat.of_string g1) as [v|]; [|discriminate]. cbn [bind].
  destruct (truthy g2); cbn [negb orb] in H1.
  - destruct (PyFloat.of_string g2) as [x|]; [|discriminate]. cbn [bind].
    apply IH, H2.
  - cbn [bind]. apply IH, H2.
Qed.

Lemma numerical_answers_Raise ms :
  forall acc e,
    numerical_answers ms acc = Raise e ->
    exists g1 g2 lit,
      In (g1, g2) ms /\ (lit = g1 \/ lit = g2) /\
      PyFloat.of_string lit = None /\ e = FloatError lit.
Proof.
  induction ms as [|[g1 g2] ms IH]; intros acc e H; cbn [numerical_answers] in H.
  - discriminate.
  - unfold float in H.
    destruct (PyFloat.of_string g1) as [v|] eqn:H1; cbn [bind] in H.
    + destruct (truthy g2).
      * destruct (PyFloat.of_string g2) as [x|] eqn:H2; cbn [bind] in H.
        -- destruct (IH _ _ H) as (a & b & lit & Hin & Hl & Hn & He).
           exists a, b, lit. simpl. auto.
        -- inversion H; subst. exists g1, g2, g2. simpl. auto.
      * cbn [bind] in H.
        destruct (IH _ _ H) as (a & b & lit & Hin & Hl & Hn & He).
        exists a, b, lit. simpl. auto.
    + inversion H; subst. exists g1, g2, g1. simpl. auto.
Qed.

Lemma numerical_answers_bad ms :
  forall acc, forallb literals_ok ms = false ->
              exists e, numerical_answers ms acc = Raise e.
Proof.
  induction ms as [|[g1 g2] ms IH]; intros acc H; cbn [forallb] in H.
  - discriminate.
  - cbn [numerical_answers]. unfold float.
    unfold literals_ok in H.
    destruct (PyFloat.of_string g1) as [v|]; cbn [bind]; [|eauto].
    destruct (truthy g2); cbn [negb orb] in H.
    + destruct (PyFloat.of_string g2) as [x|]; cbn [bind]; [|eauto].
      apply IH. exact H.
    + cbn [bind]. apply IH. exact H.
Qed.

(** Every numerical answer built carries the [display] of its value and
    tolerance. *)
Lemma numerical_answers_display ms :
  forall acc l,
    (forall v t s, In (Numeric v t s) acc -> s = display v t) ->
    numerical_answers ms acc = Ok l ->
    forall v t s, In (Numeric v t s) l -> s = display v t.
Proof.
  induction ms as [|[g1 g2] ms IH]; intros acc l Hacc H;
    cbn [numerical_answers] in H.
  - inversion H; subst. exact Hacc.
  - apply bind_Ok_inv in H as (v0 & _ & H).
    apply bind_Ok_inv in H as (t0 & _ & H).
    refine (IH _ _ _ H).
    intros v t s Hin. apply in_app_or in Hin as [Hin|[Hin|[]]].
    + apply Hacc, Hin.
    + inversion Hin; subst. reflexivity.
Qed.

(** ** The chain over the payload *)

Lemma in_list_tf_shape (p : string) :
  in_list p ["T"; "F"; "TRUE"; "FALSE"] = true ->
  Re.match_numerical p = false /\ contains "->" p = false /\
  contains NL p = false.
Proof.
  unfold in_list. cbn [existsb]. intros H.
  repeat (apply orb_true_iff in H as [H|H];
          [apply String.eqb_eq in H; subst; repeat split; reflexivity|]).
  discriminate.
Qed.

Lemma parse_answers_Raise q p e :
  parse_answers q p = Raise e ->
  Re.match_numerical p = true /\ _parse_numerical p = Raise e.
Proof.
  unfold parse_answers.
  destruct (in_list p ["T"; "F"; "TRUE"; "FALSE"]); [discriminate|].
  destruct (Re.match_numerical p).
  - intros H. split; [reflexivity|].
    destruct (_parse_numerical p); [discriminate | now inversion H].
  - destruct (contains "->" p); [discriminate|].
    destruct (_ || _ || _ || _); [|discriminate].
    destruct (parse_multichoice_total p) as [l Hl]. rewrite Hl. discriminate.
Qed.

Lemma parse_answers_numerical q p :
  Re.match_numerical p = true ->
  parse_answers q p =
  (a <- _parse_numerical p ;; Ok (set_answers (set_type q numerical) a)).
Proof.
  intros H. unfold parse_answers.
  destruct (in_list p ["T"; "F"; "TRUE"; "FALSE"]) eqn:Htf.
  - apply in_list_tf_shape in Htf as (Hn & _). congruence.
  - now rewrite H.
Qed.

(** [_parse_question] in terms of [body] and [answers_block_of]. *)
Lemma parse_question_Raise c block e :
  _parse_question c block = Raise e <->
  exists p, answers_block_of block = Some p /\
            Re.match_numerical p = true /\ _parse_numerical p = Raise e.
Proof.
  unfold _parse_question, answers_block_of, body.
  destruct (take_title block) as [t b]. cbn [snd].
  destruct (contains "{" (drop_html b)); cbn [negb].
  2:{ split; [discriminate | intros (p & H & _); discriminate]. }
  destruct (Re.match_braces (drop_html b)) as [[g1 g2]|].
  2:{ split; [discriminate | intros (p & H & _); discriminate]. }
  split.
  - intros H. exists (strip g2). split; [reflexivity|].
    apply bind_Raise_inv in H as [H|(a & _ & H)]; [|discriminate].
    apply parse_answers_Raise in H. exact H.
  - intros (p & Hp & Hn & Hr). inversion Hp; subst p.
    rewrite parse_answers_numerical by exact Hn. rewrite Hr. reflexivity.
Qed.

(** C4, as the claim states it, fails: the display text of [#100:5] is
    the float text ["100.0 ± 5.0"] and that of [#7] is ["7.0"], not
    ["100 ± 5"] and ["7"]. *)
Lemma C4_display_counterexample :
  (_parse_numerical "#100:5" =
   Ok [Numeric (PyFloat.Finite false 7036874417766400 (-46))
               (Float (PyFloat.Finite false 5629499534213120 (-50)))
               "100.0 ± 5.0"] /\
   "100.0 ± 5.0" <> "100 ± 5") /\
  (_parse_numerical "#7" =
   Ok [Numeric (PyFloat.Finite false 7881299347898368 (-50)) (Int 0) "7.0"] /\
   "7.0" <> "7").
Proof.
  split; (split; [vm_compute; reflexivity | discriminate]).
Qed.

(** C4, amended.  The block [{#100:5}] yields one numerical answer with
    value 100, tolerance 5 and display text ["100.0 ± 5.0"]; [{#7}]
    yields value 7, the integer tolerance 0 and display text ["7.0"]; and
    every numerical answer displays its value as a float, followed by the
    plus-minus sign and the tolerance exactly when the tolerance is above
    zero. *)
Theorem C4_numerical_display :
  (exists v t,
      (forall c,
          _parse_question c "Q {#100:5}" =
          Ok (Some {| type := numerical; text := "Q";
                      answers := [Numeric v (Float t) "100.0 ± 5.0"];
                      category := c; title := None; feedback := None;
                      correct := None |})) /\
      is_integer v 100 /\ is_integer t 5) /\
  (exists v,
      (forall c,
          _parse_question c "Q {#7}" =
          Ok (Some {| type := numerical; text := "Q";
                      answers := [Numeric v (Int 0) "7.0"];
                      category := c; title := None; feedback := None;
                      correct := None |})) /\
      is_integer v 7) /\
  (forall answers_block l v t s,
      _parse_numerical answers_block = Ok l ->
      In (Numeric v t s) l ->
      s = PyFloat.to_string v ++
          (if positive t then " ± " ++ number_string t else "")).
Proof.
  split; [|split].
  - exists (PyFloat.Finite false 7036874417766400 (-46)),
           (PyFloat.Finite false 5629499534213120 (-50)).
    split; [intros c; vm_compute; reflexivity|].
    split; vm_compute; reflexivity.
  - exists (PyFloat.Finite false 7881299347898368 (-50)).
    split; [intros c; vm_compute; reflexivity|]. vm_compute; reflexivity.
  - intros p l v t s H Hin.
    apply (numerical_answers_display _ [] l (fun _ _ _ F => match F with end)
             H v t s Hin).
Qed.

Lemma parse_numerical_two_answers :
  _parse_numerical "#2.5:.5 #3" =
  Ok [Numeric (PyFloat.Finite false 5629499534213120 (-51))
              (Float (PyFloat.Finite false 4503599627370496 (-53)))
              "2.5 ± 0.5";
      Numeric (PyFloat.Finite false 6755399441055744 (-51)) (Int 0) "3.0"].
Proof. vm_compute. reflexivity. Qed.

(** C4 at the payload [#2.5:.5 #3]: two answers, the first with the
    suffix, the second without. *)
Lemma C4_numerical_display_witness :
  "2.5 ± 0.5" =
  PyFloat.to_string (PyFloat.Finite false 5629499534213120 (-51)) ++
  (if positive (Float (PyFloat.Finite false 4503599627370496 (-53)))
   then " ± " ++
        number_string (Float (PyFloat.Finite false 4503599627370496 (-53)))
   else "").
Proof.
  apply (proj2 (proj2 C4_numerical_display) _ _ _ _ _
           parse_numerical_two_answers).
  left. reflexivity.
Defined.

(** ** What can raise *)

Lemma parse_question_payload c block p :
  answers_block_of block = Some p ->
  exists q0, _parse_question c block =
             (q <- parse_answers q0 p ;; Ok (Some q)).
Proof.
  unfold _parse_question, answers_block_of, body.
  destruct (take_title block) as [t b]. cbn [snd].
  destruct (contains "{" (drop_html b)); cbn [negb]; [|discriminate].
  destruct (Re.match_braces (drop_html b)) as [[g1 g2]|]; [|discriminate].
  intros H; inversion H; subst p. eexists. reflexivity.
Qed.

Lemma parse_block_Raise self block e :
  parse_block self block = Raise e ->
  _parse_question (current_category self) (strip block) = Raise e.
Proof.
  unfold parse_block.
  destruct (negb (truthy (strip block))); [discriminate|].
  destruct (startswith category_token (strip block)); [discriminate|].
  destruct (startswith "$" (strip block)); [discriminate|].
  destruct (_parse_question (current_category self) (strip block))
    as [[q|]|e']; cbn [bind]; try discriminate.
  intros H; inversion H; reflexivity.
Qed.

Lemma parse_blocks_Raise blocks :
  forall self e,
    parse_blocks self blocks = Raise e ->
    exists self' block,
      In block blocks /\ parse_block self' block = Raise e.
Proof.
  induction blocks as [|b bs IH]; intros self e H; cbn [parse_blocks] in H.
  - discriminate.
  - apply bind_Raise_inv in H as [H|(s' & _ & H)].
    + exists self, b. split; [left; reflexivity | exact H].
    + destruct (IH _ _ H) as (s'' & b' & Hin & Hb).
      exists s'', b'. split; [right; exact Hin | exact Hb].
Qed.

(** The only error a block or a decoded document raises is [float]'s. *)
Lemma parse_question_Raise_float c block e :
  _parse_question c block = Raise e ->
  exists lit, e = FloatError lit /\ PyFloat.of_string lit = None.
Proof.
  intros H. apply parse_question_Raise in H as (p & _ & _ & H).
  apply numerical_answers_Raise in H as (g1 & g2 & lit & _ & _ & Hn & He).
  exists lit. auto.
Qed.

Lemma parse_content_Raise_float self content e :
  parse_content self content = Raise e ->
  exists lit, e = FloatError lit /\ PyFloat.of_string lit = None.
Proof.
  intros H. unfold parse_content in H.
  apply bind_Raise_inv in H as [H|(s' & _ & H)]; [|discriminate].
  apply parse_blocks_Raise in H as (s' & b & _ & H).
  apply parse_block_Raise in H. apply (parse_question_Raise_float _ _ _ H).
Qed.

(** C5, as the claim states it, fails: a numerical payload whose number
    or tolerance is not a literal [float] takes makes [float] raise, and
    the error leaves [parse]. *)
Lemma C5_malformed_number_counterexample :
  _parse_question "c" "Q {#+}" = Raise (FloatError "+") /\
  _parse_question "c" "Q {#1:1.2.3}" = Raise (FloatError "1.2.3") /\
  parse_content init "Q {#+}" = Raise (FloatError "+").
Proof. repeat split; vm_compute; reflexivity. Qed.

(** C5, amended.  Apart from the decode error, parsing raises in one
    case only: a block raises exactly when its payload is classified as
    numerical and one of the numbers or tolerances found in it is not a
    literal [float] takes; the error is then [float]'s, for that literal,
    and it is the only kind of error a document can raise once decoded.
    A payload that none of the four earlier tests takes ends in the
    short-answer default. *)
Theorem C5_only_malformed_numbers_raise :
  forall c block,
    ((exists e, _parse_question c block = Raise e) <->
     (exists p, answers_block_of block = Some p /\
                Re.match_numerical p = true /\
                forallb literals_ok (Re.findall_numeric 0 p) = false)) /\
    (forall e, _parse_question c block = Raise e ->
               exists lit, e = FloatError lit /\
                           PyFloat.of_string lit = None) /\
    (forall p,
        answers_block_of block = Some p ->
        in_list p ["T"; "F"; "TRUE"; "FALSE"] = false ->
        Re.match_numerical p = false ->
        contains "->" p = false ->
        contains NL p = false ->
        startswith "=" p = false ->
        startswith "~" p = false ->
        startswith "%" p = false ->
        exists q, _parse_question c block = Ok (Some q) /\
                  type q = shortanswer /\ answers q = short_answers p) /\
    (forall self content e,
        parse_content self content = Raise e ->
        exists lit, e = FloatError lit /\ PyFloat.of_string lit = None).
Proof.
  intros c block.
  split; [|split; [|split]].
  - split.
    + intros [e H]. apply parse_question_Raise in H as (p & Hp & Hn & H).
      exists p. repeat split; auto.
      destruct (forallb literals_ok (Re.findall_numeric 0 p)) eqn:Hok;
        [|reflexivity].
      destruct (numerical_answers_Ok _ [] Hok) as [l Hl].
      unfold _parse_numerical in H. congruence.
    + intros (p & Hp & Hn & Hbad).
      destruct (numerical_answers_bad _ [] Hbad) as [e He].
      exists e. apply parse_question_Raise. exists p. auto.
  - apply parse_question_Raise_float.
  - intros p Hp Htf Hnum Harrow Hnl He Ht Hpc.
    destruct (parse_question_payload c block p Hp) as [q0 Hq].
    rewrite Hq. unfold parse_answers.
    rewrite Htf, Hnum, Harrow, Hnl, He, Ht, Hpc. cbn [orb bind].
    eexists. split; [reflexivity|]. split; reflexivity.
  - apply parse_content_Raise_float.
Qed.

(** C5 at the block [Q {#+}]. *)
Lemma C5_only_malformed_numbers_raise_witness :
  exists lit, FloatError "+" = FloatError lit /\ PyFloat.of_string lit = None.
Proof.
  apply (proj1 (proj2 (C5_only_malformed_numbers_raise "c" "Q {#+}"))).
  vm_compute. reflexivity.
Defined.

(** ** Reading the file *)

Section ReadingFacts.

Variable read : string -> list Byte.byte -> option string.
Variable file : list Byte.byte.

Lemma first_read_None candidates :
  first_read read candidates file = None <->
  forall e, In e candidates -> read e file = None.
Proof.
  induction candidates as [|c cs IH]; cbn [first_read].
  - split; [intros _ e [] | reflexivity].
  - destruct (read c file) as [t|] eqn:Hc.
    + split; [discriminate|]. intros H.
      rewrite (H c (or_introl eq_refl)) in Hc. discriminate.
    + rewrite IH. split.
      * intros H e [<-|Hin]; [exact Hc | apply H, Hin].
      * intros H e Hin. apply H. right. exact Hin.
Qed.

Lemma first_read_Some candidates content :
  first_read read candidates file = Some content <->
  exists before e after,
    candidates = (before ++ e :: after)%list /\
    (forall e', In e' before -> read e' file = None) /\
    read e file = Some content.
Proof.
  induction candidates as [|c cs IH]; cbn [first_read].
  - split; [discriminate|].
    intros (before & e & after & H & _). destruct before; discriminate.
  - destruct (read c file) as [t|] eqn:Hc.
    + split.
      * intros H. exists [], c, cs. repeat split; [intros e' [] | congruence].
      * intros (before & e & after & H & Hb & He).
        destruct before as [|b before]; cbn [app] in H; inversion H; subst.
        -- congruence.
        -- rewrite (Hb b (or_introl eq_refl)) in Hc. discriminate.
    + rewrite IH. split.
      * intros (before & e & after & -> & Hb & He).
        exists (c :: before), e, after. repeat split; [|exact He].
        intros e' [<-|Hin]; [exact Hc | apply Hb, Hin].
      * intros (before & e & after & H & Hb & He).
        destruct before as [|b before]; cbn [app] in H; inversion H; subst.
        -- congruence.
        -- exists before, e, after. repeat split; [|exact He].
           intros e' Hin. apply Hb. right. exact Hin.
Qed.

End ReadingFacts.

(** C6.  [parse] raises the decode error exactly when every encoding of
    the list rejects the file; the error carries the list of encodings
    tried; otherwise the content parsed is what the first encoding of
    the list that accepts the file reads. *)
Theorem C6_decode_error_iff_all_reject :
  forall (read : string -> list Byte.byte -> option string)
         (self : GiftParser) (file : list Byte.byte),
    ((exists tried, parse read self file = Raise (DecodeError tried)) <->
     (forall e, In e encodings -> read e file = None)) /\
    (forall tried, parse read self file = Raise (DecodeError tried) ->
                   tried = encodings) /\
    (forall content,
        read_content read file = Ok content <->
        exists before e after,
          encodings = (before ++ e :: after)%list /\
          (forall e', In e' before -> read e' file = None) /\
          read e file = Some content) /\
    (forall content,
        read_content read file = Ok content ->
        parse read self file = parse_content self content).
Proof.
  intros read self file.
  assert (Hraise : forall tried,
             parse read self file = Raise (DecodeError tried) ->
             first_read read encodings file = None /\ tried = encodings).
  { intros tried H. unfold parse, read_content in H.
    destruct (first_read read encodings file) as [t|]; cbn [bind] in H.
    - apply parse_content_Raise_float in H as (lit & H & _). discriminate.
    - inversion H. auto. }
  split; [|split; [|split]].
  - split.
    + intros [tried H]. apply first_read_None, (Hraise tried H).
    + intros H. apply first_read_None in H. exists encodings.
      unfold parse, read_content. rewrite H. reflexivity.
  - intros tried H. apply (Hraise tried H).
  - intros content. rewrite <- first_read_Some. unfold read_content.
    destruct (first_read read encodings file); split; intros H;
      inversion H; reflexivity.
  - intros content H. unfold parse. rewrite H. reflexivity.
Qed.

(** C6 with a reader that rejects every encoding. *)
Lemma C6_decode_error_iff_all_reject_witness :
  exists tried, parse (fun _ _ => None) init [] = Raise (DecodeError tried).
Proof.
  apply (proj2 (proj1 (C6_decode_error_iff_all_reject
                         (fun _ _ => None) init []))).
  intros e _. reflexivity.
Defined.

(** ** The type of a question *)

Lemma parse_answers_type q p q' :
  parse_answers q p = Ok q' -> type q' = first_match p.
Proof.
  unfold parse_answers, first_match.
  destruct (in_list p ["T"; "F"; "TRUE"; "FALSE"]).
  { intros H; inversion H; reflexivity. }
  destruct (Re.match_numerical p).
  { intros H. apply bind_Ok_inv in H as (a & _ & H).
    inversion H; reflexivity. }
  destruct (contains "->" p).
  { intros H; inversion H; reflexivity. }
  destruct (_ || _ || _ || _).
  { intros H. apply bind_Ok_inv in H as (a & _ & H).
    inversion H; reflexivity. }
  intros H; inversion H; reflexivity.
Qed.

Lemma first_match_known p : first_match p <> unknown /\
  In (first_match p) [truefalse; numerical; matching; multichoice; shortanswer].
Proof.
  unfold first_match.
  destruct (in_list p _); [split; [discriminate | simpl; auto]|].
  destruct (Re.match_numerical p); [split; [discriminate | simpl; auto]|].
  destruct (contains "->" p); [split; [discriminate | simpl; auto]|].
  destruct (_ || _ || _ || _); split; try discriminate; simpl; auto 6.
Qed.

Lemma parse_question_known c block q :
  _parse_question c block = Ok (Some q) -> known_type q.
Proof.
  unfold _parse_question, known_type.
  destruct (take_title block) as [t b].
  destruct (negb (contains "{" (drop_html b))).
  { intros H; inversion H; subst q. simpl. auto. }
  destruct (Re.match_braces (drop_html b)) as [[g1 g2]|]; [|discriminate].
  intros H. apply bind_Ok_inv in H as (q' & Hq & H). inversion H; subst q'.
  rewrite (parse_answers_type _ _ _ Hq).
  right. apply first_match_known.
Qed.

Lemma parse_block_known self block self' :
  Forall known_type (questions self) ->
  parse_block self block = Ok self' ->
  Forall known_type (questions self').
Proof.
  intros Hq. unfold parse_block.
  destruct (negb (truthy (strip block))); [intros H; inversion H; subst; auto|].
  destruct (startswith category_token (strip block));
    [intros H; inversion H; subst; auto|].
  destruct (startswith "$" (strip block));
    [intros H; inversion H; subst; auto|].
  intros H. apply bind_Ok_inv in H as ([q|] & Hp & H); inversion H; subst; auto.
  cbn [questions]. apply Forall_app. split; [exact Hq|].
  constructor; [|constructor].
  apply parse_question_known in Hp. exact Hp.
Qed.

Lemma parse_blocks_known blocks :
  forall self self',
    Forall known_type (questions self) ->
    parse_blocks self blocks = Ok self' ->
    Forall known_type (questions self').
Proof.
  induction blocks as [|b bs IH]; intros self self' Hq H;
    cbn [parse_blocks] in H.
  - inversion H; subst; exact Hq.
  - apply bind_Ok_inv in H as (s1 & Hb & H).
    apply (IH _ _ (parse_block_known _ _ _ Hq Hb) H).
Qed.

(** C9.  The type of a question with a payload is the first match of the
    chain true/false, numerical, matching, multiple choice, short answer;
    in particular a payload with [->] and a line feed that is not
    numerical is a matching question, with the pairs of
    [_parse_matching], and not a multiple-choice one. *)
Theorem C9_matching_before_multichoice :
  forall c block p,
    answers_block_of block = Some p ->
    (forall q, _parse_question c block = Ok (Some q) ->
               type q = first_match p) /\
    (contains "->" p = true -> contains NL p = true ->
     Re.match_numerical p = false ->
     exists q, _parse_question c block = Ok (Some q) /\
               type q = matching /\ type q <> multichoice /\
               answers q = _parse_matching p).
Proof.
  intros c block p Hp.
  destruct (parse_question_payload c block p Hp) as [q0 Hq]. rewrite Hq.
  split.
  - intros q H. apply bind_Ok_inv in H as (q' & Hq' & H).
    inversion H; subst q'. apply (parse_answers_type _ _ _ Hq').
  - intros Harrow Hnl Hnum. unfold parse_answers.
    destruct (in_list p ["T"; "F"; "TRUE"; "FALSE"]) eqn:Htf.
    { apply in_list_tf_shape in Htf as (_ & Ha & _). congruence. }
    rewrite Hnum, Harrow. cbn [bind].
    eexists. split; [reflexivity|]. repeat split. discriminate.
Qed.

(** C9 at a two-line matching payload. *)
Lemma C9_matching_before_multichoice_witness :
  exists q,
    _parse_question "c" ("Q {=A -> 1" ++ NL ++ "=B -> 2}") = Ok (Some q) /\
    type q = matching /\ type q <> multichoice /\
    answers q = _parse_matching ("=A -> 1" ++ NL ++ "=B -> 2").
Proof.
  apply (proj2 (C9_matching_before_multichoice
                  "c" ("Q {=A -> 1" ++ NL ++ "=B -> 2}")
                  ("=A -> 1" ++ NL ++ "=B -> 2") eq_refl));
    reflexivity.
Defined.

(** C10.  No question that [parse] returns has the type [unknown] the
    record starts with: each has one of the six other types. *)
Theorem C10_no_unknown_type :
  forall (read : string -> list Byte.byte -> option string)
         (file : list Byte.byte) (qs : list Question),
    parse read init file = Ok qs ->
    Forall (fun q => type q <> unknown /\ known_type q) qs.
Proof.
  intros read file qs H. unfold parse in H.
  apply bind_Ok_inv in H as (content & _ & H). unfold parse_content in H.
  apply bind_Ok_inv in H as (self' & Hb & H). inversion H; subst qs.
  apply parse_blocks_known in Hb; [|constructor].
  apply Forall_impl with (2 := Hb). intros q Hq. split; [|exact Hq].
  unfold known_type in Hq. intros E. rewrite E in Hq.
  simpl in Hq. intuition discriminate.
Qed.

Lemma parse_latin1_document :
  parse latin1_only init
        (list_byte_of_string ("Q1 {T}" ++ NL ++ NL ++ "Q2 {=a ~b}")) =
  Ok [{| type := truefalse; text := "Q1"; answers := [];
         category := current_category init; title := None;
         feedback := None; correct := Some true |};
      {| type := multichoice; text := "Q2";
         answers := [Choice "a" true None None; Choice "b" false None None];
         category := current_category init; title := None;
         feedback := None; correct := None |}].
Proof. vm_compute. reflexivity. Qed.

(** C10 on a document of two questions. *)
Lemma C10_no_unknown_type_witness :
  Forall (fun q => type q <> unknown /\ known_type q)
    [{| type := truefalse; text := "Q1"; answers := [];
        category := current_category init; title := None;
        feedback := None; correct := Some true |};
     {| type := multichoice; text := "Q2";
        answers := [Choice "a" true None None; Choice "b" false None None];
        category := current_category init; title := None;
        feedback := None; correct := None |}].
Proof.
  exact (C10_no_unknown_type latin1_only _ _ parse_latin1_document).
Defined.

(** ** Stripped text and the closing brace *)

Lemma snoc_single {A : Type} (w : list A) (c a : A) :
  (w ++ [c])%list = [a] -> w = [] /\ c = a.
Proof.
  destruct w as [|x w]; simpl; intros H; inversion H; auto.
  destruct w; discriminate.
Qed.

Lemma rstrip_last (l : list string) :
  forall w ch, rstrip_chars l = (w ++ [ch])%list -> is_space ch = false.
Proof.
  induction l as [|a t IH]; intros w c H; cbn [rstrip_chars] in H.
  - destruct w; discriminate.
  - destruct (rstrip_chars t) as [|b r] eqn:Hr.
    + destruct (is_space a) eqn:Ha.
      * destruct w; discriminate.
      * symmetry in H. apply snoc_single in H as [_ ->]. exact Ha.
    + destruct w as [|x w]; cbn [app] in H.
      * inversion H.
      * inversion H; subst x. apply (IH w c). assumption.
Qed.

Lemma high_continuation (c : ascii) :
  is_high c = false -> is_continuation c = false.
Proof.
  intros H. destruct (is_continuation c) eqn:E; [|reflexivity].
  apply continuation_high in E. congruence.
Qed.

(** An ASCII byte starts a character wherever it stands. *)
Lemma chars_app_ascii (w : string) (c : ascii) (t : string) :
  is_high c = false ->
  chars (w ++ String c t) = (chars w ++ chars (String c t))%list.
Proof.
  intros Hc. rewrite (chars_ascii c t Hc).
  induction w as [|x w IH]; [exact (chars_ascii c t Hc)|].
  cbn [append chars]. rewrite IH.
  destruct (chars w) as [|[|d ch] rest]; cbn [app]; try reflexivity.
  - rewrite (high_continuation c Hc), andb_false_r. reflexivity.
  - now destruct (is_high x && is_continuation d).
Qed.

(** A stripped text does not end with a line feed. *)
Lemma strip_last (u w : string) : strip u <> w ++ NL.
Proof.
  intros H. apply (f_equal chars) in H.
  rewrite chars_strip in H. unfold NL in H.
  rewrite chars_app_ascii in H by reflexivity.
  apply rstrip_last in H. discriminate.
Qed.

Lemma prefix_drop (p s : string) :
  prefix p s = true -> s = p ++ drop (String.length p) s.
Proof.
  revert s. induction p as [|a p IH]; intros s H; simpl.
  - destruct s; reflexivity.
  - destruct s as [|b s]; simpl in H; [discriminate|].
    destruct (ascii_dec a b) as [->|]; [|discriminate].
    simpl. f_equal. apply IH, H.
Qed.

Lemma cut_spec (sub s l r : string) :
  cut sub s = Some (l, r) -> s = l ++ sub ++ r.
Proof.
  revert l r. induction s as [|c t IH]; intros l r H.
  - cbn [cut] in H. destruct (prefix sub "") eqn:Hp; [|discriminate].
    inversion H; subst. apply (prefix_drop _ _ Hp).
  - cbn [cut] in H. destruct (prefix sub (String c t)) eqn:Hp.
    + inversion H; subst. apply (prefix_drop _ _ Hp).
    + destruct (cut sub t) as [[l' r']|]; [|discriminate].
      inversion H; subst. simpl. f_equal. apply IH. reflexivity.
Qed.

Lemma endswith_app (p a b : string) :
  endswith p b = true -> endswith p (a ++ b) = true.
Proof.
  induction a as [|c a IH]; intros H; simpl; [exact H|].
  rewrite (IH H). apply orb_true_r.
Qed.

Lemma closing_brace_Some (s g : string) :
  Re.closing_brace s = Some g ->
  endswith "}" s = true \/ exists w, s = w ++ String nl "".
Proof.
  revert g. induction s as [|c t IH]; intros g H; [discriminate|].
  cbn [Re.closing_brace] in H.
  destruct (String c t =? "}") eqn:H1.
  { left. cbn [endswith]. rewrite H1. reflexivity. }
  destruct (String c t =? String "}" NL) eqn:H2.
  { right. apply String.eqb_eq in H2. exists "}". exact H2. }
  cbn [orb] in H.
  destruct (Re.closing_brace t) as [g'|]; [|discriminate].
  destruct (IH g' eq_refl) as [He|[w Hw]].
  - left. cbn [endswith]. rewrite He. apply orb_true_r.
  - right. exists (String c w). simpl. f_equal. exact Hw.
Qed.

Lemma body_stripped (b : string) : exists u, body (strip b) = strip u.
Proof.
  unfold body, take_title, drop_html.
  destruct (Re.match_title (strip b)) as [[g1 after]|]; cbn [snd].
  - destruct (contains "[html]" (strip after)); eauto.
  - destruct (contains "[html]" (strip b)); eauto.
Qed.

Lemma match_braces_endswith (u g1 g2 : string) :
  Re.match_braces (strip u) = Some (g1, g2) ->
  endswith "}" (strip u) = true.
Proof.
  unfold Re.match_braces.
  destruct (cut "{" (strip u)) as [[l after]|] eqn:Hc; [|discriminate].
  destruct (Re.closing_brace after) as [g|] eqn:Hg; [|discriminate].
  intros _. apply cut_spec in Hc.
  destruct (closing_brace_Some _ _ Hg) as [He|[w Hw]].
  - rewrite Hc, <- append_assoc. apply endswith_app, He.
  - exfalso. subst after.
    rewrite <- !append_assoc in Hc.
    now apply strip_last in Hc.
Qed.

(** A block whose body has an opening brace and no closing brace at its
    end gives no question. *)
Lemma parse_question_unbalanced c b :
  contains "{" (body (strip b)) = true ->
  endswith "}" (body (strip b)) = false ->
  _parse_question c (strip b) = Ok None.
Proof.
  intros Hopen Hclose.
  destruct (body_stripped b) as [u Hu].
  unfold _parse_question. unfold body in *.
  destruct (take_title (strip b)) as [t blk]. cbn [snd] in *.
  rewrite Hopen. cbn [negb].
  destruct (Re.match_braces (drop_html blk)) as [[g1 g2]|] eqn:Hm;
    [|reflexivity].
  rewrite Hu in Hm, Hclose.
  rewrite (match_braces_endswith _ _ _ Hm) in Hclose. discriminate.
Qed.

Lemma parse_blocks_app before :
  forall self after,
    parse_blocks self (before ++ after) =
    (s <- parse_blocks self before ;; parse_blocks s after).
Proof.
  induction before as [|b bs IH]; intros self after; cbn [app parse_blocks].
  - reflexivity.
  - cbn [bind]. destruct (parse_block self b) as [s|e]; cbn [bind].
    + apply IH.
    + reflexivity.
Qed.

(** C7, as the claim states it, fails: the block [Q {T}[html]] has an
    opening brace and does not end with a closing one, and it yields a
    question, because the marker is taken out before the braces are
    looked at. *)
Lemma C7_html_marker_counterexample :
  contains "{" "Q {T}[html]" = true /\
  endswith "}" "Q {T}[html]" = false /\
  parse_block init "Q {T}[html]" =
  Ok {| questions :=
          [{| type := truefalse; text := "Q"; answers := [];
              category := current_category init; title := None;
              feedback := None; correct := Some true |}];
        current_category := current_category init |}.
Proof. repeat split; vm_compute; reflexivity. Qed.

(** C7, amended.  For every block that is not a category directive and
    whose body, the block after the title and the [[html]] marker are
    taken out, has an opening brace and does not end with a closing
    brace: the parser returns its state as it was, with no question
    added, no error and the same category, and the blocks after it are
    parsed as if the block were not there. *)
Theorem C7_unbalanced_block_is_skipped :
  forall block,
    is_category_directive block = false ->
    contains "{" (body (strip block)) = true ->
    endswith "}" (body (strip block)) = false ->
    (forall self, parse_block self block = Ok self) /\
    (forall self before after,
        parse_blocks self (before ++ block :: after) =
        parse_blocks self (before ++ after)).
Proof.
  intros block Hd Hopen Hclose.
  assert (Hskip : forall self, parse_block self block = Ok self).
  { intros self. unfold parse_block. unfold is_category_directive in Hd.
    destruct (negb (truthy (strip block))); [reflexivity|].
    rewrite Hd.
    destruct (startswith "$" (strip block)); [reflexivity|].
    rewrite (parse_question_unbalanced _ _ Hopen Hclose). reflexivity. }
  split; [exact Hskip|].
  intros self before after. rewrite !parse_blocks_app.
  destruct (parse_blocks self before) as [s|e]; cbn [bind parse_blocks];
    [|reflexivity].
  rewrite Hskip. reflexivity.
Qed.

(** C7 at the block [Question {T]. *)
Lemma C7_unbalanced_block_is_skipped_witness :
  parse_blocks init (["Q1 {T}"] ++ "Question {T" :: ["Q2 {F}"]) =
  parse_blocks init (["Q1 {T}"] ++ ["Q2 {F}"]).
Proof.
  apply (proj2 (C7_unbalanced_block_is_skipped "Question {T"
                  eq_refl eq_refl eq_refl)).
Defined.

(** ** Categories *)

Lemma replace_absent (old new s : string) :
  contains old s = false -> replace_from old new 0 s = s.
Proof.
  induction s as [|c t IH]; intros H; cbn [replace_from]; [reflexivity|].
  cbn [contains] in H. apply orb_false_iff in H as [Hp Ht].
  rewrite Hp, (IH Ht). reflexivity.
Qed.

(** Where the token does not come again, taking it out leaves what
    follows it. *)
Lemma replace_category_token (rest : string) :
  contains category_token rest = false ->
  replace category_token "" (category_token ++ rest) = rest.
Proof.
  intros H. unfold replace, category_token. simpl.
  replace (prefix "" rest) with true by (destruct rest; reflexivity).
  apply replace_absent, H.
Qed.

Lemma parse_block_directive self block :
  is_category_directive block = true ->
  parse_block self block =
  Ok {| questions := questions self;
        current_category := directive_category block |}.
Proof.
  unfold is_category_directive, parse_block, directive_category. intros H.
  destruct (strip block) as [|c t] eqn:Hs; [discriminate|].
  cbn [truthy String.eqb negb]. rewrite H. reflexivity.
Qed.

(** A block that is not a directive keeps the category and adds at most
    one question, stamped with it. *)
Lemma parse_block_stamp self block self' :
  is_category_directive block = false ->
  parse_block self block = Ok self' ->
  current_category self' = current_category self /\
  exists new,
    questions self' = (questions self ++ new)%list /\
    Forall (fun q => category q = current_category self) new.
Proof.
  unfold is_category_directive, parse_block. intros Hd.
  destruct (negb (truthy (strip block))).
  { intros H; inversion H; subst. split; [reflexivity|].
    exists []. rewrite app_nil_r. auto. }
  rewrite Hd.
  destruct (startswith "$" (strip block)).
  { intros H; inversion H; subst. split; [reflexivity|].
    exists []. rewrite app_nil_r. auto. }
  intros H. apply bind_Ok_inv in H as ([q|] & _ & H); inversion H; subst.
  - split; [reflexivity|]. cbn [questions]. eexists. split; [reflexivity|].
    constructor; [reflexivity | constructor].
  - split; [reflexivity|]. exists []. rewrite app_nil_r. auto.
Qed.

(** Whatever the blocks, the questions already there stay as they are. *)
Lemma parse_blocks_extends blocks :
  forall self self',
    parse_blocks self blocks = Ok self' ->
    exists new, questions self' = (questions self ++ new)%list.
Proof.
  induction blocks as [|b bs IH]; intros self self' H; cbn [parse_blocks] in H.
  - inversion H; subst. exists []. now rewrite app_nil_r.
  - apply bind_Ok_inv in H as (s1 & Hb & H).
    destruct (IH _ _ H) as [new2 H2].
    destruct (is_category_directive b) eqn:Hd.
    + rewrite (parse_block_directive _ _ Hd) in Hb. inversion Hb; subst s1.
      exists new2. exact H2.
    + destruct (parse_block_stamp _ _ _ Hd Hb) as (_ & new1 & H1 & _).
      exists (new1 ++ new2)%list. rewrite H2, H1, app_assoc. reflexivity.
Qed.

(** Between directives the category stays, and every question added
    carries it. *)
Lemma parse_blocks_stamp blocks :
  forall self self',
    forallb (fun b => negb (is_category_directive b)) blocks = true ->
    parse_blocks self blocks = Ok self' ->
    current_category self' = current_category self /\
    exists new,
      questions self' = (questions self ++ new)%list /\
      Forall (fun q => category q = current_category self) new.
Proof.
  induction blocks as [|b bs IH]; intros self self' Hn H;
    cbn [parse_blocks] in H.
  - inversion H; subst. split; [reflexivity|].
    exists []. rewrite app_nil_r. auto.
  - cbn [forallb] in Hn. apply andb_true_iff in Hn as [Hb Hn].
    apply negb_true_iff in Hb.
    apply bind_Ok_inv in H as (s1 & H1 & H).
    destruct (parse_block_stamp _ _ _ Hb H1) as (Hc1 & new1 & Hq1 & Hf1).
    destruct (IH _ _ Hn H) as (Hc2 & new2 & Hq2 & Hf2).
    split; [congruence|].
    exists (new1 ++ new2)%list. split.
    + rewrite Hq2, Hq1, app_assoc. reflexivity.
    + apply Forall_app. split; [exact Hf1|].
      rewrite Hc1 in Hf2. exact Hf2.
Qed.

(** C8, as the claim states it, fails: every occurrence of the token is
    taken out of a directive block, not only the one it starts with, so
    the category of this block is ["AB"], not the rest of the block. *)
Lemma C8_token_twice_counterexample :
  startswith category_token "$CATEGORY:A$CATEGORY:B" = true /\
  strip (drop (String.length category_token) "$CATEGORY:A$CATEGORY:B") =
  "A$CATEGORY:B" /\
  parse_block init "$CATEGORY:A$CATEGORY:B" =
  Ok {| questions := []; current_category := "AB" |}.
Proof. repeat split; vm_compute; reflexivity. Qed.

(** C8, amended.  A block that starts with the category token yields no
    question and sets the category to the block with every occurrence of
    the token taken out, stripped; this is the stripped rest of the
    block whenever the token does not come again in it.  Questions
    already emitted are never changed by later blocks; until the next
    directive the category stays and every question emitted carries it;
    and a parser starts with the default category. *)
Theorem C8_category_propagation :
  (forall self block,
      is_category_directive block = true ->
      parse_block self block =
      Ok {| questions := questions self;
            current_category :=
              strip (replace category_token "" (strip block)) |}) /\
  (forall block rest,
      strip block = category_token ++ rest ->
      contains category_token rest = false ->
      strip (replace category_token "" (strip block)) = strip rest) /\
  (forall self blocks self',
      parse_blocks self blocks = Ok self' ->
      exists new, questions self' = (questions self ++ new)%list) /\
  (forall self blocks self',
      forallb (fun b => negb (is_category_directive b)) blocks = true ->
      parse_blocks self blocks = Ok self' ->
      current_category self' = current_category self /\
      exists new,
        questions self' = (questions self ++ new)%list /\
        Forall (fun q => category q = current_category self) new) /\
  (forall self before d after,
      is_category_directive d = true ->
      parse_blocks self (before ++ d :: after) =
      (s <- parse_blocks self before ;;
       parse_blocks {| questions := questions s;
                       current_category :=
                         strip (replace category_token "" (strip d)) |}
                    after)) /\
  current_category init = "Общие вопросы".
Proof.
  split; [|split; [|split; [|split; [|split]]]].
  - apply parse_block_directive.
  - intros block rest Hs Hr. rewrite Hs, (replace_category_token _ Hr).
    reflexivity.
  - intros self blocks self'. apply parse_blocks_extends.
  - intros self blocks self'. apply parse_blocks_stamp.
  - intros self before d after Hd. rewrite parse_blocks_app.
    destruct (parse_blocks self before) as [s|e]; cbn [bind parse_blocks];
      [|reflexivity].
    rewrite (parse_block_directive _ _ Hd). reflexivity.
  - reflexivity.
Qed.

(** C8 on the blocks Math, Q1, Science, Q2. *)
Lemma C8_category_propagation_witness :
  parse_blocks init (["$CATEGORY: Math"; "Q1 {T}"]
                     ++ "$CATEGORY: Science" :: ["Q2 {F}"]) =
  (s <- parse_blocks init ["$CATEGORY: Math"; "Q1 {T}"] ;;
   parse_blocks {| questions := questions s;
                   current_category :=
                     strip (replace category_token ""
                                    (strip "$CATEGORY: Science")) |}
                ["Q2 {F}"]).
Proof.
  apply (proj1 (proj2 (proj2 (proj2 (proj2 C8_category_propagation))))
           init ["$CATEGORY: Math"; "Q1 {T}"] "$CATEGORY: Science"
           ["Q2 {F}"] eq_refl).
Defined.

(** The questions of that document carry Math and Science. *)
Lemma category_propagation_example :
  parse_content init
    ("$CATEGORY: Math" ++ NL ++ NL ++ "Q1 {T}" ++ NL ++ NL ++
     "$CATEGORY: Science" ++ NL ++ NL ++ "Q2 {F}") =
  Ok [{| type := truefalse; text := "Q1"; answers := [];
         category := "Math"; title := None; feedback := None;
         correct := Some true |};
      {| type := truefalse; text := "Q2"; answers := [];
         category := "Science"; title := None; feedback := None;
         correct := Some false |}].
Proof. vm_compute. reflexivity. Qed.

(** * Further properties *)

(** ** The shape of the answers *)

Lemma single_line_fits parts :
  forall marker t acc l,
    forallb (fits multichoice) acc = true ->
    single_line parts marker t acc = Ok l ->
    forallb (fits multichoice) l = true.
Proof.
  assert (Hflush : forall marker t acc l,
             forallb (fits multichoice) acc = true ->
             flush marker t acc = Ok l ->
             forallb (fits multichoice) l = true).
  { intros marker t acc l Hacc. unfold flush.
    destruct (_ && _); [|intros H; inversion H; subst; exact Hacc].
    intros H. apply bind_Ok_inv in H as (a & Ha & H). inversion H; subst l.
    rewrite forallb_app, Hacc. unfold _parse_answer_with_feedback in Ha.
    destruct (split "#" (strip t)) as [|p0 [|p1 more]];
      try (inversion Ha; reflexivity).
    destruct (Re.match_percentage (strip p1));
      [|inversion Ha; reflexivity].
    apply bind_Ok_inv in Ha as (x & _ & Ha). inversion Ha; reflexivity. }
  induction parts as [|part rest IH]; intros marker t acc l Hacc;
    cbn [single_line].
  - apply Hflush, Hacc.
  - destruct (in_list part ["="; "~"; "%"]).
    + intros H. apply bind_Ok_inv in H as (acc' & Hf & H).
      apply (IH _ _ _ _ (Hflush _ _ _ _ Hacc Hf) H).
    + apply IH, Hacc.
Qed.

Lemma parse_answer_fits t b a :
  _parse_answer_with_feedback t b = Ok a -> fits multichoice a = true.
Proof.
  unfold _parse_answer_with_feedback.
  destruct (split "#" t) as [|p0 [|p1 more]];
    try (intros H; inversion H; reflexivity).
  destruct (Re.match_percentage (strip p1));
    [|intros H; inversion H; reflexivity].
  intros H. apply bind_Ok_inv in H as (x & _ & H). inversion H; reflexivity.
Qed.

Lemma multi_line_fits lines :
  forall acc l,
    forallb (fits multichoice) acc = true ->
    multi_line lines acc = Ok l ->
    forallb (fits multichoice) l = true.
Proof.
  induction lines as [|line rest IH]; intros acc l Hacc; cbn [multi_line].
  - intros H; inversion H; subst; exact Hacc.
  - assert (Hstep : forall b,
               (a <- _parse_answer_with_feedback
                       (strip (drop 1 (strip line))) b ;;
                multi_line rest (acc ++ [a])%list) = Ok l ->
               forallb (fits multichoice) l = true).
    { intros b H. apply bind_Ok_inv in H as (a & Ha & H).
      apply (IH _ _) in H; [exact H|].
      rewrite forallb_app, Hacc. cbn [forallb].
      rewrite (parse_answer_fits _ _ _ Ha). reflexivity. }
    destruct (negb (truthy (strip line))); [apply IH, Hacc|].
    destruct (startswith "=" (strip line)); [apply Hstep|].
    destruct (startswith "~" (strip line)); [apply Hstep|].
    destruct (startswith "%" (strip line)); [apply Hstep|].
    apply IH, Hacc.
Qed.

Lemma numerical_answers_fits ms :
  forall acc l,
    forallb (fits numerical) acc = true ->
    numerical_answers ms acc = Ok l ->
    forallb (fits numerical) l = true.
Proof.
  induction ms as [|[g1 g2] ms IH]; intros acc l Hacc H;
    cbn [numerical_answers] in H.
  - inversion H; subst; exact Hacc.
  - apply bind_Ok_inv in H as (v & _ & H).
    apply bind_Ok_inv in H as (t & _ & H).
    apply (IH _ _) in H; [exact H|].
    rewrite forallb_app, Hacc. reflexivity.
Qed.

Lemma matching_pairs_fits lines :
  forall acc,
    forallb (fits matching) acc = true ->
    forallb (fits matching) (matching_pairs lines acc) = true.
Proof.
  induction lines as [|line rest IH]; intros acc Hacc; cbn [matching_pairs].
  - exact Hacc.
  - destruct (_ || _); [apply IH, Hacc|].
    destruct (contains "->" _); [|apply IH, Hacc].
    destruct (split_arrow _) as [l r]. apply IH.
    rewrite forallb_app, Hacc. reflexivity.
Qed.

Lemma short_answers_fits p :
  forallb (fits shortanswer) (short_answers p) = true.
Proof.
  unfold short_answers.
  induction (tl (split "=" p)) as [|x l IH]; cbn [filter map forallb].
  - reflexivity.
  - destruct (truthy (strip x)) eqn:Hx; cbn [map forallb fits]; [|exact IH].
    rewrite Hx, IH. reflexivity.
Qed.

(** What the chain over the payload leaves in the question. *)
Lemma parse_answers_record q p q' :
  parse_answers q p = Ok q' ->
  forallb (fits (type q')) (answers q') = true /\
  (type q' = truefalse /\ answers q' = [] /\ (exists b, correct q' = Some b)
   \/ type q' <> truefalse /\ correct q' = correct q) /\
  text q' = text q /\ title q' = title q /\ feedback q' = feedback q /\
  category q' = category q.
Proof.
  unfold parse_answers.
  destruct (in_list p ["T"; "F"; "TRUE"; "FALSE"]).
  { intros H; inversion H; subst q'. cbn. repeat split. left. eauto. }
  destruct (Re.match_numerical p).
  { intros H. apply bind_Ok_inv in H as (a & Ha & H). inversion H; subst q'.
    cbn. repeat split; [|right; split; [discriminate|reflexivity]].
    apply (numerical_answers_fits _ [] a eq_refl Ha). }
  destruct (contains "->" p).
  { intros H; inversion H; subst q'. cbn.
    repeat split; [|right; split; [discriminate|reflexivity]].
    apply (matching_pairs_fits _ [] eq_refl). }
  destruct (_ || _ || _ || _).
  { intros H. apply bind_Ok_inv in H as (a & Ha & H). inversion H; subst q'.
    cbn. repeat split; [|right; split; [discriminate|reflexivity]].
    unfold _parse_multichoice in Ha. destruct (negb (contains NL p)).
    - apply (single_line_fits _ _ _ [] a eq_refl Ha).
    - apply (multi_line_fits _ [] a eq_refl Ha). }
  intros H; inversion H; subst q'. cbn.
  repeat split; [|right; split; [discriminate|reflexivity]].
  apply short_answers_fits.
Qed.

(** X1.  Every question [_parse_question] returns has answers of the
    shape of its type: choices for multichoice, accepted answers that
    are correct and not empty for shortanswer, numbers for numerical,
    pairs for matching, and none for truefalse and description. *)
Theorem X1_answers_fit_type :
  forall c block q,
    _parse_question c block = Ok (Some q) ->
    forallb (fits (type q)) (answers q) = true /\
    (type q = truefalse \/ type q = description -> answers q = []).
Proof.
  intros c block q. unfold _parse_question.
  destruct (take_title block) as [t b].
  destruct (negb (contains "{" (drop_html b))).
  { intros H; inversion H; subst q. cbn. auto. }
  destruct (Re.match_braces (drop_html b)) as [[g1 g2]|]; [|discriminate].
  intros H. apply bind_Ok_inv in H as (q' & Hq & H). inversion H; subst q'.
  destruct (parse_answers_record _ _ _ Hq) as (Hf & Hc & _).
  split; [exact Hf|].
  intros [Ht|Ht].
  - destruct Hc as [(_ & Ha & _)|(Hn & _)]; [exact Ha | congruence].
  - rewrite (parse_answers_type _ _ _ Hq) in Ht.
    pose proof (first_match_known (strip g2)) as [_ Hk].
    rewrite Ht in Hk. simpl in Hk. intuition discriminate.
Qed.

Lemma parse_short_answer_block :
  _parse_question "c" "Capital? {x =Paris = =London}" =
  Ok (Some {| type := shortanswer; text := "Capital?";
              answers := [Accepted "Paris" true; Accepted "London" true];
              category := "c"; title := None; feedback := None;
              correct := None |}).
Proof. vm_compute. reflexivity. Qed.

(** X1 at a short-answer block. *)
Lemma X1_answers_fit_type_witness :
  forallb (fits shortanswer)
          [Accepted "Paris" true; Accepted "London" true] = true /\
  (shortanswer = truefalse \/ shortanswer = description ->
   [Accepted "Paris" true; Accepted "London" true] = []).
Proof.
  exact (X1_answers_fit_type _ _ _ parse_short_answer_block).
Defined.

(** X2.  In every question [_parse_question] returns, the key [correct]
    is there exactly when the type is truefalse, the question-level
    feedback is never set, and the category is the one passed in. *)
Theorem X2_correct_only_for_truefalse :
  forall c block q,
    _parse_question c block = Ok (Some q) ->
    (correct q <> None <-> type q = truefalse) /\
    feedback q = None /\ category q = c.
Proof.
  intros c block q. unfold _parse_question.
  destruct (take_title block) as [t b].
  set (q0 := match t with Some _ => set_title _ t | None => _ end).
  assert (H0 : correct q0 = None /\ feedback q0 = None /\ category q0 = c)
    by (subst q0; destruct t; cbn; auto).
  clearbody q0. destruct H0 as (Hc0 & Hf0 & Hk0).
  destruct (negb (contains "{" (drop_html b))).
  { intros H; inversion H; subst q. cbn. repeat split; auto.
    - intros E. congruence.
    - discriminate. }
  destruct (Re.match_braces (drop_html b)) as [[g1 g2]|]; [|discriminate].
  intros H. apply bind_Ok_inv in H as (q' & Hq & H). inversion H; subst q'.
  destruct (parse_answers_record _ _ _ Hq) as (_ & Hc & _ & _ & Hf & Hk).
  cbn in Hc, Hf, Hk. repeat split; try congruence.
  - intros Hn. destruct Hc as [(Ht & _)|(_ & Hc)]; [exact Ht | congruence].
  - intros Ht. destruct Hc as [(_ & _ & b' & Hb)|(Hn & _)]; congruence.
Qed.

Lemma parse_titled_truefalse_block :
  _parse_question "c" ":: Sky ::The sky is blue. {T}" =
  Ok (Some {| type := truefalse; text := "The sky is blue.";
              answers := []; category := "c"; title := Some "Sky";
              feedback := None; correct := Some true |}).
Proof. vm_compute. reflexivity. Qed.

(** X2 at a true/false block. *)
Lemma X2_correct_only_for_truefalse_witness :
  (Some true <> None <-> truefalse = truefalse) /\
  @None string = None /\ "c" = "c".
Proof.
  exact (X2_correct_only_for_truefalse _ _ _ parse_titled_truefalse_block).
Defined.

(** ** Trimmed texts *)

Lemma rstrip_idem (l : list string) :
  rstrip_chars (rstrip_chars l) = rstrip_chars l.
Proof.
  induction l as [|c t IH]; cbn [rstrip_chars]; [reflexivity|].
  destruct (rstrip_chars t) as [|b r] eqn:Hr.
  - destruct (is_space c) eqn:Hc; cbn [rstrip_chars]; [reflexivity|].
    rewrite Hc. reflexivity.
  - cbn [rstrip_chars]. cbn [rstrip_chars] in IH. rewrite IH. reflexivity.
Qed.

Lemma lstrip_solid (l : list string) : starts_solid (lstrip_chars l).
Proof.
  induction l as [|c t IH]; cbn [lstrip_chars]; [exact I|].
  destruct (is_space c) eqn:Hc; [exact IH | exact Hc].
Qed.

Lemma lstrip_fixed (l : list string) : starts_solid l -> lstrip_chars l = l.
Proof. destruct l as [|c t]; cbn; [reflexivity|]. now intros ->. Qed.

Lemma rstrip_solid (l : list string) :
  starts_solid l -> starts_solid (rstrip_chars l).
Proof.
  destruct l as [|c t]; cbn [rstrip_chars starts_solid]; [auto|].
  intros Hc. destruct (rstrip_chars t); [rewrite Hc|]; exact Hc.
Qed.

Lemma strip_idem (s : string) : trimmed (strip s).
Proof.
  unfold trimmed. unfold strip at 1. rewrite chars_strip.
  rewrite (lstrip_fixed _ (rstrip_solid _ (lstrip_solid (chars s)))).
  rewrite rstrip_idem. reflexivity.
Qed.

Lemma parse_answer_trimmed t b a :
  trimmed t ->
  _parse_answer_with_feedback t b = Ok a -> answer_trimmed a.
Proof.
  intros Ht. unfold _parse_answer_with_feedback.
  destruct (split "#" t) as [|p0 [|p1 more]];
    try (intros H; inversion H; subst a; cbn; split;
         [exact Ht | discriminate]).
  destruct (Re.match_percentage (strip p1)).
  - intros H. apply bind_Ok_inv in H as (x & _ & H). inversion H; subst a.
    cbn. split; [apply strip_idem|].
    destruct more; intros y E; inversion E; apply strip_idem.
  - intros H; inversion H; subst a. cbn. split; [apply strip_idem|].
    intros y E; inversion E; apply strip_idem.
Qed.

Lemma single_line_trimmed parts :
  forall marker t acc l,
    Forall answer_trimmed acc ->
    single_line parts marker t acc = Ok l ->
    Forall answer_trimmed l.
Proof.
  assert (Hflush : forall marker t acc l,
             Forall answer_trimmed acc ->
             flush marker t acc = Ok l -> Forall answer_trimmed l).
  { intros marker t acc l Hacc. unfold flush.
    destruct (_ && _); [|intros H; inversion H; subst; exact Hacc].
    intros H. apply bind_Ok_inv in H as (a & Ha & H). inversion H; subst l.
    apply Forall_app. split; [exact Hacc|].
    constructor; [|constructor].
    apply (parse_answer_trimmed _ _ _ (strip_idem t) Ha). }
  induction parts as [|part rest IH]; intros marker t acc l Hacc;
    cbn [single_line].
  - apply Hflush, Hacc.
  - destruct (in_list part ["="; "~"; "%"]).
    + intros H. apply bind_Ok_inv in H as (acc' & Hf & H).
      apply (IH _ _ _ _ (Hflush _ _ _ _ Hacc Hf) H).
    + apply IH, Hacc.
Qed.

Lemma multi_line_trimmed lines :
  forall acc l,
    Forall answer_trimmed acc ->
    multi_line lines acc = Ok l ->
    Forall answer_trimmed l.
Proof.
  induction lines as [|line rest IH]; intros acc l Hacc; cbn [multi_line].
  - intros H; inversion H; subst; exact Hacc.
  - assert (Hstep : forall b,
               (a <- _parse_answer_with_feedback
                       (strip (drop 1 (strip line))) b ;;
                multi_line rest (acc ++ [a])%list) = Ok l ->
               Forall answer_trimmed l).
    { intros b H. apply bind_Ok_inv in H as (a & Ha & H).
      refine (IH _ _ _ H). apply Forall_app. split; [exact Hacc|].
      constructor; [|constructor].
      apply (parse_answer_trimmed _ _ _ (strip_idem _) Ha). }
    destruct (negb (truthy (strip line))); [apply IH, Hacc|].
    destruct (startswith "=" (strip line)); [apply Hstep|].
    destruct (startswith "~" (strip line)); [apply Hstep|].
    destruct (startswith "%" (strip line)); [apply Hstep|].
    apply IH, Hacc.
Qed.

Lemma numerical_answers_trimmed ms :
  forall acc l,
    Forall answer_trimmed acc ->
    numerical_answers ms acc = Ok l ->
    Forall answer_trimmed l.
Proof.
  induction ms as [|[g1 g2] ms IH]; intros acc l Hacc H;
    cbn [numerical_answers] in H.
  - inversion H; subst; exact Hacc.
  - apply bind_Ok_inv in H as (v & _ & H).
    apply bind_Ok_inv in H as (t & _ & H).
    refine (IH _ _ _ H). apply Forall_app. split; [exact Hacc|].
    constructor; [exact I | constructor].
Qed.

Lemma matching_pairs_trimmed lines :
  forall acc,
    Forall answer_trimmed acc ->
    Forall answer_trimmed (matching_pairs lines acc).
Proof.
  induction lines as [|line rest IH]; intros acc Hacc; cbn [matching_pairs].
  - exact Hacc.
  - destruct (_ || _); [apply IH, Hacc|].
    destruct (contains "->" _); [|apply IH, Hacc].
    destruct (split_arrow _) as [l r]. apply IH.
    apply Forall_app. split; [exact Hacc|].
    constructor; [|constructor]. split; apply strip_idem.
Qed.

Lemma short_answers_trimmed p : Forall answer_trimmed (short_answers p).
Proof.
  unfold short_answers.
  induction (filter (fun part => truthy (strip part)) (tl (split "=" p)))
    as [|x l IH]; cbn [map]; constructor; [apply strip_idem | exact IH].
Qed.

Lemma parse_answers_trimmed q p q' :
  parse_answers q p = Ok q' -> Forall answer_trimmed (answers q').
Proof.
  unfold parse_answers.
  destruct (in_list p ["T"; "F"; "TRUE"; "FALSE"]).
  { intros H; inversion H; subst q'. constructor. }
  destruct (Re.match_numerical p).
  { intros H. apply bind_Ok_inv in H as (a & Ha & H). inversion H; subst q'.
    apply (numerical_answers_trimmed _ [] a (Forall_nil _) Ha). }
  destruct (contains "->" p).
  { intros H; inversion H; subst q'.
    apply (matching_pairs_trimmed _ [] (Forall_nil _)). }
  destruct (_ || _ || _ || _).
  { intros H. apply bind_Ok_inv in H as (a & Ha & H). inversion H; subst q'.
    unfold _parse_multichoice in Ha. destruct (negb (contains NL p)).
    - apply (single_line_trimmed _ _ _ [] a (Forall_nil _) Ha).
    - apply (multi_line_trimmed _ [] a (Forall_nil _) Ha). }
  intros H; inversion H; subst q'. apply short_answers_trimmed.
Qed.

(** X3.  Every text a question carries is trimmed: the question text,
    the title, and in the answers the choice texts and feedbacks, the
    accepted short answers and both sides of the pairs have no white
    space at either end. *)
Theorem X3_texts_are_trimmed :
  forall c block q,
    _parse_question c block = Ok (Some q) ->
    trimmed (text q) /\
    (forall t, title q = Some t -> trimmed t) /\
    Forall answer_trimmed (answers q).
Proof.
  intros c block q. unfold _parse_question, take_title.
  destruct (Re.match_title block) as [[g after]|].
  - destruct (negb (contains "{" (drop_html (strip after)))).
    { intros H; inversion H; subst q. cbn. repeat split.
      - apply strip_idem.
      - intros t E; inversion E; apply strip_idem.
      - constructor. }
    destruct (Re.match_braces _) as [[g1 g2]|]; [|discriminate].
    intros H. apply bind_Ok_inv in H as (q' & Hq & H). inversion H; subst q'.
    destruct (parse_answers_record _ _ _ Hq) as (_ & _ & Ht & Hti & _).
    rewrite Ht, Hti. cbn. repeat split.
    + apply strip_idem.
    + intros t E; inversion E; apply strip_idem.
    + apply (parse_answers_trimmed _ _ _ Hq).
  - destruct (negb (contains "{" (drop_html block))).
    { intros H; inversion H; subst q. cbn. repeat split.
      - apply strip_idem.
      - discriminate.
      - constructor. }
    destruct (Re.match_braces _) as [[g1 g2]|]; [|discriminate].
    intros H. apply bind_Ok_inv in H as (q' & Hq & H). inversion H; subst q'.
    destruct (parse_answers_record _ _ _ Hq) as (_ & _ & Ht & Hti & _).
    rewrite Ht, Hti. cbn. repeat split.
    + apply strip_idem.
    + discriminate.
    + apply (parse_answers_trimmed _ _ _ Hq).
Qed.

(** X3 at a titled block. *)
Lemma X3_texts_are_trimmed_witness :
  trimmed "The sky is blue." /\
  (forall t, Some "Sky" = Some t -> trimmed t) /\
  Forall answer_trimmed [].
Proof.
  exact (X3_texts_are_trimmed _ _ _ parse_titled_truefalse_block).
Defined.

(** ** Signs *)

Lemma round_ratio_unsigned (num den : Z) :
  unsigned (PyFloat.round_ratio false num den) = true.
Proof.
  unfold PyFloat.round_ratio.
  repeat match goal with
         | |- context [if ?b then _ else _] => destruct b
         end; reflexivity.
Qed.

Lemma of_string_unsigned (s : string) (x : PyFloat.float) :
  match chars s with
  | ch :: _ => (ch =? "-") = false
  | [] => True
  end ->
  PyFloat.of_string s = Some x -> unsigned x = true.
Proof.
  unfold PyFloat.of_string. destruct (chars s) as [|c t].
  - intros _.
    destruct (span is_digit []) as [ip r1].
    destruct (match r1 with
              | [] => ([], r1)
              | ch :: t0 =>
                  if ch =? "." then span is_digit t0 else ([], r1)
              end) as [fp r2].
    destruct (_ && _); [|discriminate].
    intros H; inversion H. apply round_ratio_unsigned.
  - intros Hc. rewrite Hc.
    destruct (c =? "+").
    + destruct (span is_digit t) as [ip r1].
      destruct (match r1 with
                | [] => ([], r1)
                | ch :: t0 =>
                    if ch =? "." then span is_digit t0 else ([], r1)
                end) as [fp r2].
      destruct (_ && _); [|discriminate].
      intros H; inversion H. apply round_ratio_unsigned.
    + destruct (span is_digit (c :: t)) as [ip r1].
      destruct (match r1 with
                | [] => ([], r1)
                | ch :: t0 =>
                    if ch =? "." then span is_digit t0 else ([], r1)
                end) as [fp r2].
      destruct (_ && _); [|discriminate].
      intros H; inversion H. apply round_ratio_unsigned.
Qed.

Lemma tolerance_char_not_minus (ch : string) :
  Re.is_tolerance_char ch = true -> (ch =? "-") = false.
Proof.
  unfold Re.is_tolerance_char. intros H.
  apply orb_true_iff in H as [H|H].
  - apply (digit_not_sign ch H).
  - apply String.eqb_eq in H. now subst ch.
Qed.

Lemma flatten_nonempty (l : list string) :
  chars_ok l = true -> l <> [] -> flatten l <> "".
Proof.
  intros Hok Hne E. apply chars_flatten in Hok. rewrite E in Hok.
  symmetry in Hok. contradiction.
Qed.

Lemma numeric_at_groups t g1 g2 n :
  Re.numeric_at t = Some (g1, g2, n) ->
  all_chars Re.is_value_char g1 = true /\ g1 <> "" /\
  all_chars Re.is_tolerance_char g2 = true.
Proof.
  unfold Re.numeric_at, all_chars.
  assert (Hok := chars_ok_lstrip _ (chars_ok_chars t)).
  destruct (span Re.is_value_char (lstrip_chars (chars t))) as [a r1] eqn:Ha.
  destruct (span_spec _ _ _ _ Ha) as (Hl & Hall & _).
  rewrite Hl in Hok. apply chars_ok_app in Hok as [Hoka Hokr].
  destruct a as [|a0 a]; [discriminate|].
  assert (Hg : forall x y, (match r1 with
                 | [] => ([], r1)
                 | ch :: r2 =>
                     if ch =? ":" then span Re.is_tolerance_char r2
                     else ([], r1)
                 end) = (x, y) ->
                 forallb Re.is_tolerance_char x = true /\ chars_ok x = true).
  { intros x y. destruct r1 as [|c r2]; [intros E; inversion E; auto|].
    destruct (c =? ":"); [|intros E; inversion E; auto].
    intros E. apply span_spec in E as (E & Hx & _). split; [exact Hx|].
    change (c :: r2)%list with ([c] ++ r2)%list in Hokr.
    apply chars_ok_app in Hokr as [_ Hokr]. rewrite E in Hokr.
    now apply chars_ok_app in Hokr. }
  destruct (match r1 with
            | [] => ([], r1)
            | ch :: r2 =>
                if ch =? ":" then span Re.is_tolerance_char r2
                else ([], r1)
            end) as [b rest] eqn:Hb.
  destruct (Hg _ _ eq_refl) as [Hbt Hbok].
  assert (Ha' : flatten (a0 :: a) <> "")
    by (apply flatten_nonempty; [assumption | discriminate]).
  destruct b as [|b0 b]; intros H; inversion H; subst; repeat split; auto.
  - change (a0 ++ flatten a) with (flatten (a0 :: a)).
    now rewrite (chars_flatten _ Hoka).
  - change (a0 ++ flatten a) with (flatten (a0 :: a)).
    now rewrite (chars_flatten _ Hoka).
  - change (b0 ++ flatten b) with (flatten (b0 :: b)).
    now rewrite (chars_flatten _ Hbok).
Qed.

Lemma findall_numeric_groups s :
  forall k g1 g2,
    In (g1, g2) (Re.findall_numeric k s) ->
    all_chars Re.is_value_char g1 = true /\ g1 <> "" /\
    all_chars Re.is_tolerance_char g2 = true.
Proof.
  induction s as [|c t IH]; intros k g1 g2 H; cbn [Re.findall_numeric] in H.
  - destruct H.
  - destruct k as [|k]; [|apply (IH _ _ _ H)].
    destruct (Ascii.eqb c "#"); [|apply (IH _ _ _ H)].
    destruct (Re.numeric_at t) as [[[a b] n]|] eqn:Hn; [|apply (IH _ _ _ H)].
    destruct H as [E|H]; [|apply (IH _ _ _ H)].
    inversion E; subst. apply (numeric_at_groups _ _ _ _ Hn).
Qed.

Lemma first_not_minus (g : string) :
  all_chars Re.is_tolerance_char g = true ->
  match chars g with
  | ch :: _ => (ch =? "-") = false
  | [] => True
  end.
Proof.
  unfold all_chars. destruct (chars g) as [|ch r]; [auto|].
  cbn [forallb]. intros H. apply andb_true_iff in H as [H _].
  now apply tolerance_char_not_minus.
Qed.

Lemma numerical_answers_tolerance ms :
  forall acc l,
    (forall g1 g2, In (g1, g2) ms ->
                   all_chars Re.is_tolerance_char g2 = true) ->
    (forall v t s, In (Numeric v t s) acc -> tolerance_ok t = true) ->
    numerical_answers ms acc = Ok l ->
    forall v t s, In (Numeric v t s) l -> tolerance_ok t = true.
Proof.
  induction ms as [|[g1 g2] ms IH]; intros acc l Hms Hacc H;
    cbn [numerical_answers] in H.
  - inversion H; subst. exact Hacc.
  - apply bind_Ok_inv in H as (v0 & _ & H).
    apply bind_Ok_inv in H as (t0 & Ht0 & H).
    refine (IH _ _ _ _ H).
    + intros a b Hin. apply (Hms a b). right. exact Hin.
    + intros v t s Hin. apply in_app_or in Hin as [Hin|[Hin|[]]].
      * apply (Hacc _ _ _ Hin).
      * inversion Hin; subst v t s.
        destruct (truthy g2) eqn:Hg; [|inversion Ht0; reflexivity].
        apply bind_Ok_inv in Ht0 as (x & Hx & Ht0). inversion Ht0; subst t0.
        unfold float in Hx.
        destruct (PyFloat.of_string g2) as [y|] eqn:Hy; [|discriminate].
        inversion Hx; subst y.
        pose proof (Hms _ _ (or_introl eq_refl)) as Hall.
        apply (of_string_unsigned _ _ (first_not_minus _ Hall) Hy).
Qed.

(** X4.  The tolerance of a numerical answer is never negative: it is
    the integer 0 when the payload gives none, and else a float whose
    sign is clear, whatever the payload. *)
Theorem X4_tolerance_never_negative :
  forall answers_block l v t s,
    _parse_numerical answers_block = Ok l ->
    In (Numeric v t s) l ->
    tolerance_ok t = true.
Proof.
  intros p l v t s H. unfold _parse_numerical in H.
  apply (numerical_answers_tolerance (Re.findall_numeric 0 p) [] l).
  - intros g1 g2 Hin. apply (findall_numeric_groups _ _ _ _ Hin).
  - intros ? ? ? [].
  - exact H.
Qed.

Lemma parse_numerical_negative_value :
  _parse_numerical "#-1.5:0.25" =
  Ok [Numeric (PyFloat.Finite true 6755399441055744 (-52))
              (Float (PyFloat.Finite false 4503599627370496 (-54)))
              "-1.5 ± 0.25"].
Proof. vm_compute. reflexivity. Qed.

(** X4 at the payload [#-1.5:0.25]. *)
Lemma X4_tolerance_never_negative_witness :
  tolerance_ok (Float (PyFloat.Finite false 4503599627370496 (-54))) = true.
Proof.
  apply (X4_tolerance_never_negative
           _ _ (PyFloat.Finite true 6755399441055744 (-52)) _ "-1.5 ± 0.25"
           parse_numerical_negative_value).
  left. reflexivity.
Defined.

Lemma match_percentage_digit (s g : string) :
  Re.match_percentage s = Some g ->
  exists ch r, chars g = ch :: r /\ is_digit ch = true.
Proof.
  unfold Re.match_percentage.
  destruct (span is_digit (chars s)) as [ip r1] eqn:Hs.
  destruct (span_spec _ _ _ _ Hs) as (Hl & Hip & _).
  assert (Hok := chars_ok_chars s). rewrite Hl in Hok.
  destruct ip as [|c ip]; [discriminate|].
  cbn [forallb] in Hip. apply andb_true_iff in Hip as [Hc _].
  destruct (_ || _).
  - intros H; inversion H.
    change (c ++ flatten ip) with (flatten (c :: ip)).
    rewrite (chars_flatten _ (proj1 (chars_ok_app _ _ Hok))). eauto.
  - destruct r1 as [|d r2]; [discriminate|].
    destruct (span is_digit r2) as [fp r3] eqn:Hf.
    destruct (span_spec _ _ _ _ Hf) as (Hl2 & _ & _).
    destruct ((d =? ".") && negb (is_nil fp) && _) eqn:Hd; [|discriminate].
    intros H; inversion H.
    apply andb_true_iff in Hd as [Hd _]. apply andb_true_iff in Hd as [Hd _].
    apply String.eqb_eq in Hd. subst d r2.
    replace ((c :: ip) ++ "." :: fp ++ r3)%list
      with (((c :: ip) ++ "." :: fp) ++ r3)%list in Hok
      by (rewrite <- app_assoc; reflexivity).
    apply chars_ok_app in Hok as [Hok _].
    replace ((c ++ flatten ip) ++ String "." (flatten fp))
      with (flatten ((c :: ip) ++ "." :: fp))
      by (rewrite flatten_app; reflexivity).
    rewrite (chars_flatten _ Hok). cbn [app]. eauto.
Qed.

(** X5.  The answer sub-parser returns a choice that keeps the
    correctness passed in, and its percentage, when there is one, is
    never negative. *)
Theorem X5_percentage_never_negative :
  forall text is_correct a,
    _parse_answer_with_feedback text is_correct = Ok a ->
    exists t p f,
      a = Choice t is_correct p f /\
      forall x, p = Some x -> unsigned x = true.
Proof.
  intros t b a. unfold _parse_answer_with_feedback.
  destruct (split "#" t) as [|p0 [|p1 more]];
    try (intros H; inversion H; do 3 eexists; split;
         [reflexivity | discriminate]).
  destruct (Re.match_percentage (strip p1)) as [g|] eqn:Hg.
  - intros H. apply bind_Ok_inv in H as (x & Hx & H). inversion H.
    do 3 eexists. split; [reflexivity|].
    intros y E; inversion E; subst y.
    destruct (match_percentage_digit _ _ Hg) as (c & r & Hch & Hc).
    unfold float in Hx.
    destruct (PyFloat.of_string g) as [z|] eqn:Hz; [|discriminate].
    inversion Hx; subst z.
    apply (of_string_unsigned g); [|exact Hz].
    rewrite Hch. apply (digit_not_sign c Hc).
  - intros H; inversion H. do 3 eexists. split; [reflexivity | discriminate].
Qed.

Lemma parse_answer_percentage :
  _parse_answer_with_feedback "Paris #50% #half right" true =
  Ok (Choice "Paris" true
             (Some (PyFloat.Finite false 7036874417766400 (-47)))
             (Some "half right")).
Proof. vm_compute. reflexivity. Qed.

(** X5 at an answer with a percentage and a feedback. *)
Lemma X5_percentage_never_negative_witness :
  exists t p f,
    Choice "Paris" true
           (Some (PyFloat.Finite false 7036874417766400 (-47)))
           (Some "half right") = Choice t true p f /\
    forall x, p = Some x -> unsigned x = true.
Proof.
  exact (X5_percentage_never_negative _ _ _ parse_answer_percentage).
Defined.

(** ** Comments *)

Lemma prefix_empty (s : string) : prefix "" s = true.
Proof. destruct s; reflexivity. Qed.

Lemma prefix_one (a c : ascii) (x : string) :
  prefix (String a "") (String c x) = Ascii.eqb a c.
Proof.
  cbn [prefix]. destruct (ascii_dec a c) as [->|n].
  - rewrite prefix_empty, Ascii.eqb_refl. reflexivity.
  - symmetry. apply Ascii.eqb_neq, n.
Qed.

Lemma prefix_two (a b c : ascii) (x : string) :
  prefix (String a (String b "")) (String c x) =
  Ascii.eqb a c && prefix (String b "") x.
Proof.
  cbn [prefix]. destruct (ascii_dec a c) as [->|n].
  - rewrite Ascii.eqb_refl. destruct x; reflexivity.
  - apply Ascii.eqb_neq in n. rewrite n. reflexivity.
Qed.

Lemma contains_drop (sub s : string) (n : nat) :
  contains sub s = false -> contains sub (drop n s) = false.
Proof.
  revert s. induction n as [|n IH]; intros s H; [destruct s; exact H|].
  destruct s as [|c t]; [exact H|]. cbn [drop]. apply IH.
  cbn [contains] in H. apply orb_false_iff in H. apply H.
Qed.

Lemma comment_end_None (s : string) :
  contains "*/" s = false -> Re.comment_end s = None.
Proof.
  induction s as [|c t IH]; intros H; [reflexivity|].
  cbn [contains] in H. apply orb_false_iff in H as [Hp Ht].
  cbn [Re.comment_end]. rewrite Hp, (IH Ht). reflexivity.
Qed.

Lemma sub_line_comments_absent (s : string) :
  contains "//" s = false -> Re.sub_line_comments false s = s.
Proof.
  induction s as [|c t IH]; intros H; [reflexivity|].
  cbn [contains] in H. apply orb_false_iff in H as [Hp Ht].
  cbn [Re.sub_line_comments]. rewrite Hp, (IH Ht). reflexivity.
Qed.

Lemma sub_block_comments_absent (s : string) :
  contains "/*" s = false \/ contains "*/" s = false ->
  Re.sub_block_comments 0 s = s.
Proof.
  induction s as [|c t IH]; intros H; [reflexivity|].
  cbn [Re.sub_block_comments].
  assert (Ht : contains "/*" t = false \/ contains "*/" t = false).
  { destruct H as [H|H]; cbn [contains] in H;
      apply orb_false_iff in H; [left | right]; apply H. }
  destruct (prefix "/*" (String c t)) eqn:Hp.
  - destruct H as [H|H].
    + cbn [contains] in H. rewrite Hp in H. discriminate.
    + rewrite (comment_end_None _ (contains_drop _ _ 2 H)), (IH Ht).
      reflexivity.
  - rewrite (IH Ht). reflexivity.
Qed.

(** X6.  A document with no line-comment marker, and with no opening or
    no closing block-comment marker, passes [_remove_comments] as it is;
    in particular a block comment that is never closed stays in the
    text. *)
Theorem X6_no_comment_no_change :
  forall content,
    contains "//" content = false ->
    contains "/*" content = false \/ contains "*/" content = false ->
    _remove_comments content = content.
Proof.
  intros s H1 H2. unfold _remove_comments.
  rewrite (sub_line_comments_absent _ H1).
  apply sub_block_comments_absent, H2.
Qed.

(** X6 at a text with an unclosed block comment. *)
Lemma X6_no_comment_no_change_witness :
  _remove_comments "Q {T} /* never closed" = "Q {T} /* never closed".
Proof.
  apply X6_no_comment_no_change; [reflexivity | right; reflexivity].
Defined.

Lemma sub_line_comments_inside_head (s : string) :
  prefix "/" (Re.sub_line_comments true s) = false.
Proof.
  induction s as [|c t IH]; cbn [Re.sub_line_comments]; [reflexivity|].
  destruct (Ascii.eqb c nl) eqn:Hc; [|exact IH].
  apply Ascii.eqb_eq in Hc. subst c. reflexivity.
Qed.

Lemma sub_line_comments_head (s : string) :
  prefix "/" (Re.sub_line_comments false s) = true -> prefix "/" s = true.
Proof.
  destruct s as [|c t]; cbn [Re.sub_line_comments]; [auto|].
  destruct (prefix "//" (String c t)) eqn:Hp.
  - intros _. rewrite prefix_two in Hp. apply andb_true_iff in Hp as [Hc _].
    rewrite prefix_one. exact Hc.
  - rewrite !prefix_one. auto.
Qed.

Lemma sub_line_comments_clean (s : string) :
  forall inside, contains "//" (Re.sub_line_comments inside s) = false.
Proof.
  induction s as [|c t IH]; intros inside; cbn [Re.sub_line_comments].
  - destruct inside; reflexivity.
  - destruct inside.
    + destruct (Ascii.eqb c nl) eqn:Hc; [|apply IH].
      apply Ascii.eqb_eq in Hc. subst c.
      cbn [contains]. rewrite IH, prefix_two. reflexivity.
    + destruct (prefix "//" (String c t)) eqn:Hp; [apply IH|].
      cbn [contains]. rewrite IH, orb_false_r, prefix_two.
      rewrite prefix_two in Hp.
      destruct (Ascii.eqb "/" c); [|reflexivity]. cbn [andb] in *.
      destruct (prefix "/" (Re.sub_line_comments false t)) eqn:Hh;
        [|reflexivity].
      rewrite (sub_line_comments_head _ Hh) in Hp. discriminate.
Qed.

Lemma sub_block_comments_clean (s : string) :
  forall k,
    contains "//" s = false ->
    contains "//" (Re.sub_block_comments k s) = false /\
    (k = 0 -> prefix "/" (Re.sub_block_comments k s) = true ->
     prefix "/" s = true).
Proof.
  induction s as [|c t IH]; intros k H; cbn [Re.sub_block_comments].
  - split; [reflexivity | auto].
  - cbn [contains] in H. apply orb_false_iff in H as [Hp Ht].
    destruct k as [|k].
    2:{ split; [apply (IH k Ht) | discriminate]. }
    assert (Hkeep :
      contains "//" (String c (Re.sub_block_comments 0 t)) = false /\
      (0 = 0 -> prefix "/" (String c (Re.sub_block_comments 0 t)) = true ->
       prefix "/" (String c t) = true)).
    { destruct (IH 0 Ht) as [Hc Hh]. split.
      - cbn [contains]. rewrite Hc, orb_false_r, prefix_two.
        rewrite prefix_two in Hp.
        destruct (Ascii.eqb "/" c); [|reflexivity]. cbn [andb] in *.
        destruct (prefix "/" (Re.sub_block_comments 0 t)) eqn:E;
          [|reflexivity].
        rewrite (Hh eq_refl eq_refl) in Hp. discriminate.
      - rewrite !prefix_one. auto. }
    destruct (prefix "/*" (String c t)) eqn:Hs; [|exact Hkeep].
    destruct (Re.comment_end (drop 2 (String c t))) as [n|]; [|exact Hkeep].
    split; [apply (IH (S n) Ht)|].
    intros _ _. rewrite prefix_two in Hs.
    apply andb_true_iff in Hs as [Hc _]. rewrite prefix_one. exact Hc.
Qed.

(** X7.  Whatever the document, no line-comment marker [//] is left in
    what [_remove_comments] returns. *)
Theorem X7_no_line_comment_left :
  forall content, contains "//" (_remove_comments content) = false.
Proof.
  intros s. unfold _remove_comments.
  apply sub_block_comments_clean, sub_line_comments_clean.
Qed.

(** ** Documents and blocks *)

Lemma lacks_app (c : ascii) (a b : string) :
  lacks c (a ++ b) = lacks c a && lacks c b.
Proof.
  induction a as [|x a IH]; cbn [append lacks]; [reflexivity|].
  rewrite IH, andb_assoc. reflexivity.
Qed.

Lemma prefix_head_neq (a c : ascii) (o x : string) :
  Ascii.eqb c a = false -> prefix (String a o) (String c x) = false.
Proof.
  intros H. cbn [prefix]. destruct (ascii_dec a c) as [->|]; [|reflexivity].
  rewrite Ascii.eqb_refl in H. discriminate.
Qed.

Lemma lacks_contains (c : ascii) (o s : string) :
  lacks c s = true -> contains (String c o) s = false.
Proof.
  induction s as [|x t IH]; intros H; [reflexivity|].
  cbn [lacks] in H. apply andb_true_iff in H as [Hx Ht].
  apply negb_true_iff in Hx.
  cbn [contains]. rewrite (prefix_head_neq _ _ _ _ Hx), (IH Ht). reflexivity.
Qed.

Lemma lacks_flatten (c : ascii) (l : list string) :
  forallb (lacks c) l = true -> lacks c (flatten l) = true.
Proof.
  induction l as [|g l IH]; cbn [forallb flatten]; [reflexivity|].
  intros H. apply andb_true_iff in H as [Hg Hl].
  now rewrite lacks_app, Hg, IH.
Qed.

(** A property checked on the white space holds along a run of it. *)
Lemma spaces_forallb (P : string -> bool) (l : list string) :
  forallb P spaces = true -> forallb is_space l = true -> forallb P l = true.
Proof.
  intros HP. induction l as [|g l IH]; cbn [forallb]; [reflexivity|].
  intros H. apply andb_true_iff in H as [Hg Hl].
  now rewrite (spaces_all P g HP Hg), IH.
Qed.

Lemma string_length_app (a b : string) :
  String.length (a ++ b) = String.length a + String.length b.
Proof. induction a as [|x a IH]; cbn; [reflexivity | now rewrite IH]. Qed.

(** A run of white space is a list of characters, and the characters of
    its text. *)
Lemma spaces_chars_ok (l : list string) :
  forallb is_space l = true -> chars_ok l = true.
Proof.
  induction l as [|g l IH]; cbn [forallb chars_ok]; [reflexivity|].
  intros H. apply andb_true_iff in H as [Hg Hl].
  rewrite (spaces_all is_char g eq_refl Hg), (IH Hl).
  destruct l as [|h l]; [reflexivity|].
  cbn [forallb] in Hl. apply andb_true_iff in Hl as [Hh _].
  assert (E := spaces_all (fun x => negb (opens [x])) h eq_refl Hh).
  cbv beta in E. change (opens (h :: l)) with (opens [h]). now rewrite E.
Qed.

Lemma blank_flatten (l : list string) :
  forallb is_space l = true -> all_chars is_space (flatten l) = true.
Proof.
  intros H. unfold all_chars. now rewrite (chars_flatten _ (spaces_chars_ok _ H)).
Qed.

Lemma blank_no_comment (s : string) :
  all_chars is_space s = true ->
  contains "//" s = false /\ contains "/*" s = false.
Proof.
  unfold all_chars. intros H.
  assert (Hl : lacks "/" s = true).
  { rewrite <- (flatten_chars s).
    apply lacks_flatten, (spaces_forallb (lacks "/") _ eq_refl H). }
  split; apply lacks_contains, Hl.
Qed.

Lemma strip_blank (s : string) : all_chars is_space s = true -> strip s = "".
Proof.
  unfold strip, all_chars. induction (chars s) as [|c t IH]; intros H;
    [reflexivity|].
  cbn [forallb] in H. apply andb_true_iff in H as [Hc Ht].
  cbn [lstrip_chars]. rewrite Hc. apply IH, Ht.
Qed.

Lemma split_blank_nonempty (s : string) :
  forall k, exists h tl, Re.split_blank k s = h :: tl.
Proof.
  induction s as [|c t IH]; intros k; cbn [Re.split_blank]; [eauto|].
  destruct k as [|k]; [|apply IH].
  assert (Hp : exists h tl, push c (Re.split_blank 0 t) = h :: tl).
  { destruct (IH 0) as (h & tl & ->). cbn. eauto. }
  destruct (Ascii.eqb c nl); [|exact Hp].
  destruct (Re.blank_run (chars t)); [eauto | exact Hp].
Qed.

(** Passing over the bytes of a separator. *)
Lemma split_blank_skip (a : string) :
  forall k t,
    Re.split_blank (String.length a + k) (a ++ t) = Re.split_blank k t.
Proof.
  induction a as [|c a IH]; intros k t; [reflexivity|].
  cbn [String.length Nat.add append Re.split_blank]. apply IH.
Qed.

(** Text with no line feed goes to the piece that follows it. *)
Lemma split_blank_push (a : string) :
  forall t h tl,
    lacks nl a = true -> Re.split_blank 0 t = h :: tl ->
    Re.split_blank 0 (a ++ t) = (a ++ h) :: tl.
Proof.
  induction a as [|c a IH]; intros t h tl Ha E; [exact E|].
  cbn [lacks] in Ha. apply andb_true_iff in Ha as [Hc Ha].
  apply negb_true_iff in Hc.
  cbn [append Re.split_blank]. rewrite Hc, (IH _ _ _ Ha E). reflexivity.
Qed.

(** The separator ends where a character does. *)
Lemma blank_run_aligned (l : list string) :
  forall k, Re.blank_run l = Some k ->
            exists a b, l = (a ++ b)%list /\ k = String.length (flatten a).
Proof.
  induction l as [|ch t IH]; intros k H; cbn [Re.blank_run] in H;
    [discriminate|].
  destruct (is_space ch); [|discriminate].
  destruct (Re.blank_run t) as [k'|].
  - destruct (IH k' eq_refl) as (a & b & -> & ->).
    exists (ch :: a), b. inversion H. split; [reflexivity|].
    cbn [flatten]. now rewrite string_length_app.
  - destruct (String.eqb_spec ch NL) as [->|]; [|discriminate].
    inversion H. now exists [NL], t.
Qed.

Lemma split_blank_blank (l : list string) :
  forallb is_space l = true ->
  forall a b,
    l = (a ++ b)%list ->
    Forall (fun x => all_chars is_space x = true)
           (Re.split_blank (String.length (flatten a)) (flatten l)).
Proof.
  induction l as [|ch t IH]; intros H a b E.
  - symmetry in E. apply app_eq_nil in E as [-> _]. repeat constructor.
  - cbn [forallb] in H. apply andb_true_iff in H as [Hc Ht].
    specialize (IH Ht).
    destruct a as [|x a].
    + cbn [flatten String.length].
      destruct (split_blank_nonempty (flatten t) 0) as (h & tl & Ep).
      pose proof (IH [] t eq_refl) as Hf. cbn [flatten String.length] in Hf.
      rewrite Ep in Hf. inversion Hf as [|? ? Hh Htl]; subst.
      assert (Hpush : Forall (fun x => all_chars is_space x = true)
                             ((ch ++ h) :: tl)).
      { constructor; [|assumption].
        rewrite <- (flatten_chars h).
        change (ch ++ flatten (chars h)) with (flatten (ch :: chars h)).
        apply blank_flatten. cbn [forallb]. now rewrite Hc. }
      destruct (String.eqb_spec ch NL) as [->|Hn].
      * change (NL ++ flatten t) with (String nl (flatten t)).
        cbn [Re.split_blank]. rewrite Ascii.eqb_refl.
        rewrite (chars_flatten _ (spaces_chars_ok _ Ht)).
        destruct (Re.blank_run t) as [k|] eqn:Eb.
        -- destruct (blank_run_aligned _ _ Eb) as (a' & b' & Ea & ->).
           constructor; [reflexivity | apply (IH a' b' Ea)].
        -- rewrite Ep. exact Hpush.
      * assert (Hl := spaces_all (fun x => (x =? NL) || lacks nl x) ch
                        eq_refl Hc).
        cbv beta in Hl. apply String.eqb_neq in Hn. rewrite Hn in Hl.
        rewrite (split_blank_push _ _ _ _ Hl Ep). exact Hpush.
    + cbn [app] in E. inversion E; subst x t.
      cbn [flatten]. rewrite string_length_app, split_blank_skip.
      apply (IH a b eq_refl).
Qed.

Lemma parse_blocks_blank blocks :
  forall self,
    Forall (fun b => all_chars is_space b = true) blocks ->
    parse_blocks self blocks = Ok self.
Proof.
  induction blocks as [|b bs IH]; intros self H; [reflexivity|].
  inversion H; subst. cbn [parse_blocks]. unfold parse_block.
  rewrite (strip_blank _ H2). cbn. apply IH. assumption.
Qed.

(** X8.  A document of white space only, the empty document among them,
    yields no question and no error: [parse] returns the questions the
    parser already held. *)
Theorem X8_blank_document_has_no_question :
  forall self content,
    all_chars is_space content = true ->
    parse_content self content = Ok (questions self).
Proof.
  intros self s H. unfold parse_content.
  destruct (blank_no_comment _ H) as [H1 H2].
  unfold _remove_comments.
  rewrite (sub_line_comments_absent _ H1).
  rewrite (sub_block_comments_absent _ (or_introl H2)).
  pose proof (split_blank_blank _ H [] _ eq_refl) as Hf.
  rewrite flatten_chars in Hf.
  rewrite (parse_blocks_blank _ _ Hf). reflexivity.
Qed.

(** X8 at a document of blank lines. *)
Lemma X8_blank_document_has_no_question_witness :
  parse_content init (" " ++ NL ++ NL ++ "  " ++ NL) = Ok [].
Proof.
  apply (X8_blank_document_has_no_question init). vm_compute. reflexivity.
Defined.

Lemma parse_block_length self block self' :
  parse_block self block = Ok self' ->
  List.length (questions self') <= S (List.length (questions self)).
Proof.
  unfold parse_block.
  destruct (negb (truthy (strip block)));
    [intros H; inversion H; subst; auto|].
  destruct (startswith category_token (strip block));
    [intros H; inversion H; subst; cbn; auto|].
  destruct (startswith "$" (strip block));
    [intros H; inversion H; subst; auto|].
  intros H. apply bind_Ok_inv in H as ([q|] & _ & H); inversion H; subst; auto.
  cbn [questions]. rewrite length_app. cbn. lia.
Qed.

(** X9.  Each block adds at most one question: after any list of blocks
    the parser holds at most as many more questions as there were
    blocks, and none was taken away. *)
Theorem X9_at_most_one_question_per_block :
  forall blocks self self',
    parse_blocks self blocks = Ok self' ->
    List.length (questions self) <= List.length (questions self') /\
    List.length (questions self') <=
    List.length (questions self) + List.length blocks.
Proof.
  induction blocks as [|b bs IH]; intros self self' H; cbn [parse_blocks] in H.
  - inversion H; subst. cbn. lia.
  - apply bind_Ok_inv in H as (s1 & Hb & H).
    destruct (IH _ _ H) as [H1 H2].
    pose proof (parse_block_length _ _ _ Hb) as H3.
    destruct (parse_blocks_extends [b] self s1) as [new Hn].
    { cbn [parse_blocks]. rewrite Hb. reflexivity. }
    assert (List.length (questions self) <= List.length (questions s1))
      by (rewrite Hn, length_app; lia).
    cbn [List.length]. lia.
Qed.

Lemma parse_three_blocks :
  parse_blocks init ["Q1 {T}"; "$note"; "broken {"] =
  Ok {| questions :=
          [{| type := truefalse; text := "Q1"; answers := [];
              category := current_category init; title := None;
              feedback := None; correct := Some true |}];
        current_category := current_category init |}.
Proof. vm_compute. reflexivity. Qed.

(** X9 on three blocks of which one is a question. *)
Lemma X9_at_most_one_question_per_block_witness :
  0 <= 1 /\ 1 <= 0 + 3.
Proof.
  exact (X9_at_most_one_question_per_block _ _ _ parse_three_blocks).
Defined.

(** ** Splitting and joining *)

Lemma split_nonempty (sep : ascii) (s : string) :
  exists h tl, split sep s = h :: tl.
Proof.
  induction s as [|c t (h & tl & IH)]; cbn [split]; [eauto|].
  destruct (Ascii.eqb c sep); [eauto|]. rewrite IH. cbn. eauto.
Qed.

Lemma split_app (sep : ascii) (a b : string) :
  split sep (a ++ String sep b) = (split sep a ++ split sep b)%list.
Proof.
  induction a as [|c a IH]; cbn [append split app].
  - rewrite Ascii.eqb_refl. reflexivity.
  - rewrite IH. destruct (Ascii.eqb c sep); [reflexivity|].
    destruct (split_nonempty sep a) as (h & tl & ->). reflexivity.
Qed.

Lemma split_absent (sep : ascii) (s : string) :
  lacks sep s = true -> split sep s = [s].
Proof.
  induction s as [|c t IH]; intros H; [reflexivity|].
  cbn [lacks] in H. apply andb_true_iff in H as [Hc Ht].
  apply negb_true_iff in Hc. cbn [split]. rewrite Hc, (IH Ht). reflexivity.
Qed.

Lemma join_cons (sep : ascii) (c : ascii) (h : string) (tl : list string) :
  join (String sep "") (String c h :: tl) =
  String c (join (String sep "") (h :: tl)).
Proof. destruct tl; reflexivity. Qed.

Lemma join_split (sep : ascii) (s : string) :
  join (String sep "") (split sep s) = s.
Proof.
  induction s as [|c t IH]; [reflexivity|]. cbn [split].
  destruct (split_nonempty sep t) as (h & tl & E). rewrite E in *.
  destruct (Ascii.eqb c sep) eqn:Hc.
  - apply Ascii.eqb_eq in Hc. subst c.
    change (join (String sep "") ("" :: h :: tl))
      with (String sep (join (String sep "") (h :: tl))).
    rewrite IH. reflexivity.
  - cbn [push]. rewrite join_cons, IH. reflexivity.
Qed.

(** ** Matching lines *)

Lemma matching_pairs_acc lines :
  forall acc,
    matching_pairs lines acc = (acc ++ matching_pairs lines [])%list.
Proof.
  induction lines as [|line rest IH]; intros acc; cbn [matching_pairs].
  - now rewrite app_nil_r.
  - destruct (_ || _); [apply IH|].
    destruct (contains "->" _); [|apply IH].
    destruct (split_arrow _) as [l r].
    rewrite IH, (IH ([] ++ _)%list), app_assoc. reflexivity.
Qed.

Lemma matching_pairs_app l1 l2 :
  matching_pairs (l1 ++ l2) [] =
  (matching_pairs l1 [] ++ matching_pairs l2 [])%list.
Proof.
  assert (H : forall acc, matching_pairs (l1 ++ l2) acc =
                          matching_pairs l2 (matching_pairs l1 acc)).
  { induction l1 as [|line rest IH]; intros acc; cbn [app matching_pairs].
    - reflexivity.
    - destruct (_ || _); [apply IH|].
      destruct (contains "->" _); [|apply IH].
      destruct (split_arrow _) as [l r]. apply IH. }
  rewrite H. apply matching_pairs_acc.
Qed.

(** X10.  [_parse_matching] works line by line: the pairs of two
    payloads put one after the other on separate lines are the pairs of
    the first followed by the pairs of the second, and a line that does
    not start with the marker [=] adds no pair. *)
Theorem X10_matching_is_line_by_line :
  (forall a b,
      _parse_matching (a ++ NL ++ b) =
      (_parse_matching a ++ _parse_matching b)%list) /\
  (forall a line b,
      lacks nl line = true ->
      startswith "=" (strip line) = false ->
      _parse_matching (a ++ NL ++ line ++ NL ++ b) =
      _parse_matching (a ++ NL ++ b)).
Proof.
  assert (Happ : forall a b,
             _parse_matching (a ++ NL ++ b) =
             (_parse_matching a ++ _parse_matching b)%list).
  { intros a b. unfold _parse_matching, NL. cbn [append].
    rewrite split_app. apply matching_pairs_app. }
  split; [exact Happ|].
  intros a line b Hl Hs. rewrite !Happ. f_equal.
  assert (E : _parse_matching line = []).
  { unfold _parse_matching. rewrite (split_absent _ _ Hl).
    cbn [matching_pairs]. rewrite Hs.
    rewrite orb_true_r. reflexivity. }
  rewrite E. reflexivity.
Qed.

(** X10 with a line that lacks the marker between two pairs. *)
Lemma X10_matching_is_line_by_line_witness :
  _parse_matching ("=A -> 1" ++ NL ++ "B -> 2" ++ NL ++ "=C -> 3") =
  _parse_matching ("=A -> 1" ++ NL ++ "=C -> 3").
Proof.
  apply (proj2 X10_matching_is_line_by_line); reflexivity.
Defined.

(** ** Feedback *)

(** X11.  In the answer sub-parser a text with no [#] is the answer text
    as it is, with no percentage and no feedback; and when the text after
    the first [#] does not open with a percentage, all of it, further
    [#] included, is the feedback, stripped, and what precedes the first
    [#] is the answer text, stripped. *)
Theorem X11_feedback_is_all_after_first_hash :
  (forall text is_correct,
      lacks "#" text = true ->
      _parse_answer_with_feedback text is_correct =
      Ok (Choice text is_correct None None)) /\
  (forall a b is_correct,
      lacks "#" a = true ->
      Re.match_percentage (strip (hd "" (split "#" b))) = None ->
      _parse_answer_with_feedback (a ++ "#" ++ b) is_correct =
      Ok (Choice (strip a) is_correct None (Some (strip b)))).
Proof.
  split.
  - intros t c H. unfold _parse_answer_with_feedback.
    rewrite (split_absent _ _ H). reflexivity.
  - intros a b c Ha Hp. unfold _parse_answer_with_feedback.
    cbn [append]. rewrite split_app, (split_absent _ _ Ha). cbn [app].
    pose proof (join_split "#" b) as Hj.
    destruct (split_nonempty "#" b) as (p1 & more & E). rewrite E in *.
    cbn [hd] in Hp. rewrite Hp, Hj. reflexivity.
Qed.

(** X11 at a feedback that holds a [#] itself. *)
Lemma X11_feedback_is_all_after_first_hash_witness :
  _parse_answer_with_feedback ("Paris " ++ "#" ++ " see map #2 ") true =
  Ok (Choice (strip "Paris ") true None (Some (strip " see map #2 "))).
Proof.
  apply (proj2 X11_feedback_is_all_after_first_hash); reflexivity.
Defined.

(** ** Characters that do not occur *)

Lemma lacks_strip (c : ascii) (s : string) :
  lacks c s = true -> lacks c (strip s) = true.
Proof.
  intros H. destruct (strip_split s) as (p & q & E & _).
  rewrite E, !lacks_app in H.
  apply andb_true_iff in H as [_ H]. now apply andb_true_iff in H as [H _].
Qed.

Lemma lacks_drop (c : ascii) (n : nat) (s : string) :
  lacks c s = true -> lacks c (drop n s) = true.
Proof.
  revert s. induction n as [|n IH]; intros s H; [destruct s; exact H|].
  destruct s as [|x t]; [exact H|]. cbn [drop]. apply IH.
  cbn [lacks] in H. apply andb_true_iff in H. apply H.
Qed.

Lemma lacks_replace (c : ascii) (old new s : string) :
  lacks c new = true -> lacks c s = true ->
  forall k, lacks c (replace_from old new k s) = true.
Proof.
  intros Hn. induction s as [|x t IH]; intros H k; [reflexivity|].
  cbn [lacks] in H. apply andb_true_iff in H as [Hx Ht].
  cbn [replace_from]. destruct k as [|k]; [|apply IH, Ht].
  destruct (prefix old (String x t)).
  - rewrite lacks_app, Hn. apply IH, Ht.
  - cbn [lacks]. rewrite Hx. apply IH, Ht.
Qed.

Lemma title_rest_lacks (c : ascii) (s g r : string) :
  Re.title_rest s = Some (g, r) -> lacks c s = true -> lacks c r = true.
Proof.
  revert g r. induction s as [|x t IH]; intros g r H Hl.
  - cbn in H. discriminate.
  - cbn [Re.title_rest] in H. destruct (prefix "::" (String x t)).
    + inversion H; subst. apply (lacks_drop c 2 (String x t)), Hl.
    + destruct (Ascii.eqb x nl); [discriminate|].
      destruct (Re.title_rest t) as [[g' r']|]; [|discriminate].
      inversion H; subst. cbn [lacks] in Hl.
      apply andb_true_iff in Hl. apply (IH _ _ eq_refl), Hl.
Qed.

Lemma body_lacks (c : ascii) (block : string) :
  lacks c block = true -> lacks c (body block) = true.
Proof.
  intros H. unfold body, take_title, Re.match_title.
  assert (Hd : forall b, lacks c b = true -> lacks c (drop_html b) = true).
  { intros b Hb. unfold drop_html. destruct (contains "[html]" b); [|exact Hb].
    apply lacks_strip, lacks_replace; [reflexivity | exact Hb]. }
  destruct (prefix "::" block); [|apply Hd, H].
  destruct (Re.title_rest (drop 2 block)) as [[g r]|] eqn:Ht;
    cbn [snd]; [|apply Hd, H].
  apply Hd, lacks_strip, (title_rest_lacks _ _ _ _ Ht), lacks_drop, H.
Qed.

(** X12.  A block with no opening brace anywhere is always kept, as a
    description: no skip, no error, no answers, and its text is the
    stripped body of the block, with the title the block opens with. *)
Theorem X12_block_without_brace_is_description :
  forall c block,
    lacks "{" block = true ->
    exists q,
      _parse_question c block = Ok (Some q) /\
      type q = description /\ answers q = [] /\
      text q = strip (body block) /\ title q = fst (take_title block).
Proof.
  intros c block H.
  pose proof (lacks_contains _ "" _ (body_lacks _ _ H)) as Hb.
  unfold _parse_question. unfold body in *.
  destruct (take_title block) as [t b] eqn:Ht. cbn [snd fst] in *.
  rewrite Hb. cbn [negb]. eexists. split; [reflexivity|].
  cbn. repeat split. destruct t; reflexivity.
Qed.

Lemma lacks_brace_example :
  lacks "{" "::Intro:: Read the [html]<b>rules</b> first." = true.
Proof. reflexivity. Qed.

(** X12 at a titled description with the marker in it. *)
Lemma X12_block_without_brace_is_description_witness :
  exists q,
    _parse_question "c" "::Intro:: Read the [html]<b>rules</b> first." =
    Ok (Some q) /\
    type q = description /\ answers q = [] /\
    text q = strip (body "::Intro:: Read the [html]<b>rules</b> first.") /\
    title q = fst (take_title "::Intro:: Read the [html]<b>rules</b> first.").
Proof.
  exact (X12_block_without_brace_is_description "c" _ lacks_brace_example).
Defined.

(** ** Titles *)

Lemma title_rest_found (t r : string) :
  lacks ":" t = true -> lacks nl t = true ->
  Re.title_rest (t ++ "::" ++ r) = Some (t, r).
Proof.
  induction t as [|x t IH]; intros Hc Hn.
  - cbn [append]. cbn. destruct r; reflexivity.
  - cbn [lacks] in Hc, Hn.
    apply andb_true_iff in Hc as [Hx Hc]. apply andb_true_iff in Hn as [Hy Hn].
    apply negb_true_iff in Hx, Hy.
    cbn [append Re.title_rest].
    rewrite (prefix_head_neq _ _ _ _ Hx), Hy.
    cbn [append] in IH. rewrite (IH Hc Hn). reflexivity.
Qed.

Lemma parse_answers_set_title q t p :
  parse_answers (set_title q t) p =
  match parse_answers q p with
  | Ok q' => Ok (set_title q' t)
  | Raise e => Raise e
  end.
Proof.
  unfold parse_answers.
  destruct (in_list p ["T"; "F"; "TRUE"; "FALSE"]); [reflexivity|].
  destruct (Re.match_numerical p).
  { destruct (_parse_numerical p); reflexivity. }
  destruct (contains "->" p); [reflexivity|].
  destruct (_ || _ || _ || _); [|reflexivity].
  destruct (_parse_multichoice p); reflexivity.
Qed.

(** X13.  A title changes nothing but the title: a block made of a
    title with no colon and no line feed between [::] and [::], followed
    by a rest that does not itself open with a title, is parsed as the
    stripped rest alone is, with the stripped title set. *)
Theorem X13_title_leaves_the_rest_alone :
  forall c t r,
    lacks ":" t = true -> lacks nl t = true ->
    Re.match_title (strip r) = None ->
    _parse_question c ("::" ++ t ++ "::" ++ r) =
    with_title (Some (strip t)) (_parse_question c (strip r)).
Proof.
  intros c t r Hc Hn Hr. unfold _parse_question, take_title.
  rewrite Hr.
  assert (Hm : Re.match_title ("::" ++ t ++ "::" ++ r) = Some (t, r)).
  { unfold Re.match_title. cbn [append]. cbn [prefix].
    destruct (ascii_dec ":" ":") as [_|n]; [|congruence].
    replace (prefix "" (t ++ String ":" (String ":" r))) with true
      by (symmetry; apply prefix_empty).
    cbn [drop]. apply (title_rest_found t r Hc Hn). }
  rewrite Hm.
  destruct (negb (contains "{" (drop_html (strip r)))); [reflexivity|].
  destruct (Re.match_braces (drop_html (strip r))) as [[g1 g2]|];
    [|reflexivity].
  change (set_text (set_title ?q ?x) ?y) with (set_title (set_text q y) x).
  rewrite parse_answers_set_title.
  destruct (parse_answers _ (strip g2)); reflexivity.
Qed.

(** X13 at the block [::MyTitle::Text here {T}]. *)
Lemma X13_title_leaves_the_rest_alone_witness :
  _parse_question "c" ("::" ++ "MyTitle" ++ "::" ++ "Text here {T}") =
  with_title (Some (strip "MyTitle"))
             (_parse_question "c" (strip "Text here {T}")).
Proof.
  apply X13_title_leaves_the_rest_alone; reflexivity.
Defined.

(** ** Cleaning the markup *)

Lemma replace_lacks_head (a : ascii) (o new s : string) :
  lacks a s = true -> replace (String a o) new s = s.
Proof. intros H. apply replace_absent, lacks_contains, H. Qed.

(** X14.  [_clean_html] leaves a text with no backslash, no angle
    bracket and no ampersand as it is, but for the white space at its
    ends. *)
Theorem X14_plain_text_is_only_stripped :
  forall text,
    lacks "\" text = true -> lacks "<" text = true ->
    lacks ">" text = true -> lacks "&" text = true ->
    _clean_html text = strip text.
Proof.
  intros s Hb Hl Hg Ha. unfold _clean_html.
  rewrite !(replace_lacks_head "\" _ _ _ Hb).
  rewrite !(replace_lacks_head "<" _ _ _ Hl).
  rewrite !(replace_lacks_head "&" _ _ _ Ha).
  rewrite !(replace_lacks_head "<" _ _ _ Hl).
  rewrite !(replace_lacks_head ">" _ _ _ Hg).
  rewrite !(replace_lacks_head "&" _ _ _ Ha).
  reflexivity.
Qed.

(** X14 at a plain question text. *)
Lemma X14_plain_text_is_only_stripped_witness :
  _clean_html "  What is 2 + 2?  " = strip "  What is 2 + 2?  ".
Proof.
  apply X14_plain_text_is_only_stripped; reflexivity.
Defined.

Lemma lacks_tagged (s : string) :
  lacks "<" s = true -> lacks ">" s = true -> tagged s.
Proof.
  induction s as [|x t IH]; intros Hl Hg; [constructor|].
  cbn [lacks] in Hl, Hg.
  apply andb_true_iff in Hl as [Hx Hl]. apply andb_true_iff in Hg as [Hy Hg].
  apply negb_true_iff in Hx, Hy. constructor; auto.
Qed.

Lemma replace_char_lacks (c : ascii) (new s : string) :
  lacks c new = true ->
  lacks c (replace (String c "") new s) = true.
Proof.
  intros Hn. unfold replace. induction s as [|x t IH]; [reflexivity|].
  cbn [replace_from String.length Nat.sub]. rewrite prefix_one.
  destruct (Ascii.eqb c x) eqn:E.
  - rewrite lacks_app, Hn. exact IH.
  - cbn [lacks]. rewrite IH, Ascii.eqb_sym, E. reflexivity.
Qed.

Lemma replace_from_skip (old new : string) (s : string) :
  forall k, replace_from old new k s = replace_from old new 0 (drop k s).
Proof.
  induction s as [|x t IH]; intros k; [destruct k; reflexivity|].
  destruct k as [|k]; [reflexivity|]. cbn [replace_from drop]. apply IH.
Qed.

Lemma tag_head (t : string) :
  In t tags -> exists r, t = String "<" r.
Proof.
  intros [<-|[<-|[<-|[<-|[<-|[]]]]]]; eauto.
Qed.

Lemma tagged_tail (x : ascii) (t : string) :
  Ascii.eqb x "<" = false -> tagged (String x t) -> tagged t.
Proof.
  intros Hx H. inversion H as [|c s _ _ Hs|tg s Hin Hs E]; subst; [exact Hs|].
  destruct (tag_head _ Hin) as [r ->]. cbn [append] in E.
  inversion E; subst. discriminate.
Qed.

Lemma tagged_drop_plain (o : string) :
  forall s,
    prefix o s = true -> lacks "<" o = true -> tagged s ->
    tagged (drop (String.length o) s).
Proof.
  induction o as [|a o IH]; intros s Hp Hl Hs; [destruct s; exact Hs|].
  destruct s as [|x t]; [discriminate|].
  cbn [prefix] in Hp. destruct (ascii_dec a x) as [->|]; [|discriminate].
  cbn [lacks] in Hl. apply andb_true_iff in Hl as [Hx Hl].
  apply negb_true_iff in Hx.
  cbn [String.length drop]. apply (IH _ Hp Hl), (tagged_tail _ _ Hx Hs).
Qed.

Lemma length_drop (k : nat) (s : string) :
  String.length (drop k s) <= String.length s.
Proof.
  revert s. induction k as [|k IH]; intros s; [destruct s; auto|].
  destruct s as [|x t]; [auto|]. cbn [drop String.length].
  specialize (IH t). lia.
Qed.

(** Putting a tag in place of a text that opens with an ampersand and
    has no angle bracket keeps the brackets to the tags. *)
Lemma tagged_replace (o new : string) :
  lacks "<" o = true -> In new tags ->
  forall n s,
    String.length s <= n -> tagged s ->
    tagged (replace_from (String "&" o) new 0 s).
Proof.
  intros Ho Hnew. induction n as [|n IH]; intros s Hlen Hs.
  { destruct s; [constructor | cbn in Hlen; lia]. }
  inversion Hs as [|x t Hx Hy Ht|tg t Hin Ht]; subst.
  - constructor.
  - cbn [String.length] in Hlen. cbn [replace_from].
    destruct (prefix (String "&" o) (String x t)) eqn:Hp.
    + cbn [String.length Nat.sub]. rewrite Nat.sub_0_r, replace_from_skip.
      apply tagged_tag; [exact Hnew|]. apply IH.
      * pose proof (length_drop (String.length o) t). lia.
      * cbn [prefix] in Hp.
        destruct (ascii_dec "&" x); [|discriminate].
        apply (tagged_drop_plain _ _ Hp Ho Ht).
    + constructor; auto. apply IH; [lia | exact Ht].
  - assert (Hrec : tagged (replace_from (String "&" o) new 0 t)).
    { apply IH; [|exact Ht]. rewrite string_length_app in Hlen.
      destruct (tag_head _ Hin) as [r ->]. cbn in Hlen. lia. }
    destruct Hin as [<-|[<-|[<-|[<-|[<-|[]]]]]]; cbn [append replace_from];
      repeat (rewrite prefix_head_neq by reflexivity);
      [ apply (tagged_tag "<b>") | apply (tagged_tag "</b>")
      | apply (tagged_tag "<i>") | apply (tagged_tag "</i>")
      | apply (tagged_tag "<br/>") ];
      solve [cbn; auto 6 | exact Hrec].
Qed.

Lemma tagged_replace_all (o new s : string) :
  lacks "<" o = true -> In new tags -> tagged s ->
  tagged (replace (String "&" o) new s).
Proof.
  intros Ho Hn Hs. apply (tagged_replace o new Ho Hn (String.length s)); auto.
Qed.

(** Text without an opening bracket can be taken off the front. *)
Lemma tagged_app_l (a b : string) :
  lacks "<" a = true -> tagged (a ++ b) -> tagged b.
Proof.
  induction a as [|x a IH]; intros Hl H; [exact H|].
  cbn [lacks] in Hl. apply andb_true_iff in Hl as [Hx Hl].
  apply negb_true_iff in Hx.
  apply (IH Hl), (tagged_tail x _ Hx H).
Qed.

Ltac peel_tag E b q :=
  destruct b as [|? b]; cbn [append] in E;
  [ subst q; cbn in *; discriminate
  | injection E as ? E; subst ].

(** A tag in front of text without brackets at its end lies before that
    end. *)
Lemma tag_before (tg b q s : string) :
  In tg tags -> lacks "<" q = true -> lacks ">" q = true ->
  b ++ q = tg ++ s -> exists b', b = tg ++ b' /\ s = b' ++ q.
Proof.
  intros Hin Hl Hg E.
  destruct Hin as [<-|[<-|[<-|[<-|[<-|[]]]]]]; cbn [append] in E.
  - do 3 peel_tag E b q. exists b. auto.
  - do 4 peel_tag E b q. exists b. auto.
  - do 3 peel_tag E b q. exists b. auto.
  - do 4 peel_tag E b q. exists b. auto.
  - do 5 peel_tag E b q. exists b. auto.
Qed.

(** Text without brackets can be taken off the end. *)
Lemma tagged_app_r (s : string) :
  tagged s ->
  forall b q, s = b ++ q -> lacks "<" q = true -> lacks ">" q = true ->
              tagged b.
Proof.
  induction 1 as [|x t Hx Hy Ht IH|tg t Hin Ht IH]; intros b q E Hl Hg.
  - destruct b; [constructor | discriminate].
  - destruct b as [|y b]; [constructor|].
    cbn [append] in E. injection E as -> E.
    constructor; auto. apply (IH b q E Hl Hg).
  - symmetry in E. destruct (tag_before _ _ _ _ Hin Hl Hg E) as (b' & -> & E').
    apply tagged_tag; [exact Hin|]. apply (IH b' q E' Hl Hg).
Qed.

Lemma tagged_strip (s : string) : tagged s -> tagged (strip s).
Proof.
  intros H. destruct (strip_split s) as (p & q & E & Hp & Hq).
  rewrite E in H. apply tagged_app_l in H.
  - apply (tagged_app_r _ H (strip s) (flatten q) eq_refl).
    + apply lacks_flatten, (spaces_forallb (lacks "<") _ eq_refl Hq).
    + apply lacks_flatten, (spaces_forallb (lacks ">") _ eq_refl Hq).
  - apply lacks_flatten, (spaces_forallb (lacks "<") _ eq_refl Hp).
Qed.

(** X15.  Whatever the text, what [_clean_html] returns has angle
    brackets only as the brackets of the tags b, /b, i, /i and br/: every
    other one has been written as an entity. *)
Theorem X15_only_the_five_tags_keep_brackets :
  forall text, tagged (_clean_html text).
Proof.
  intros s. unfold _clean_html.
  apply tagged_strip.
  do 6 (apply tagged_replace_all; [reflexivity | cbn; auto 6 |]).
  apply lacks_tagged.
  - apply lacks_replace; [reflexivity|].
    apply replace_char_lacks. reflexivity.
  - apply replace_char_lacks. reflexivity.
Qed.

(** ** Where categories come from *)

Lemma category_from_later self b bs c :
  category_from self bs c -> category_from self (b :: bs) c.
Proof.
  intros [H|(x & Hin & Hd & Hc)]; [left; exact H|].
  right. exists x. split; [right; exact Hin | auto].
Qed.

Lemma parse_blocks_categories blocks :
  forall self self',
    parse_blocks self blocks = Ok self' ->
    category_from self blocks (current_category self') /\
    exists new,
      questions self' = (questions self ++ new)%list /\
      Forall (fun q => category_from self blocks (category q)) new.
Proof.
  induction blocks as [|b bs IH]; intros self self' H; cbn [parse_blocks] in H.
  - inversion H; subst. split; [left; reflexivity|].
    exists []. rewrite app_nil_r. auto.
  - apply bind_Ok_inv in H as (s1 & Hb & H).
    destruct (IH _ _ H) as (Hc & new2 & Hq2 & Hf2).
    destruct (is_category_directive b) eqn:Hd.
    + rewrite (parse_block_directive _ _ Hd) in Hb. inversion Hb; subst s1.
      cbn [current_category questions] in *.
      assert (Hlift : forall c,
                 category_from
                   {| questions := questions self;
                      current_category := directive_category b |} bs c ->
                 category_from self (b :: bs) c).
      { intros c [E|(x & Hin & Hx & E)].
        - right. exists b. cbn in E. split; [left; reflexivity | auto].
        - right. exists x. split; [right; exact Hin | auto]. }
      split; [apply Hlift, Hc|].
      exists new2. split; [exact Hq2|].
      apply Forall_impl with (2 := Hf2). intros q. apply Hlift.
    + destruct (parse_block_stamp _ _ _ Hd Hb) as (Hc1 & new1 & Hq1 & Hf1).
      assert (Hlift : forall c, category_from s1 bs c ->
                                category_from self (b :: bs) c).
      { intros c [E|(x & Hin & Hx & E)].
        - left. congruence.
        - right. exists x. split; [right; exact Hin | auto]. }
      split; [apply Hlift, Hc|].
      exists (new1 ++ new2)%list. split.
      * rewrite Hq2, Hq1, app_assoc. reflexivity.
      * apply Forall_app. split.
        -- apply Forall_impl with (2 := Hf1). intros q E. left. exact E.
        -- apply Forall_impl with (2 := Hf2). intros q. apply Hlift.
Qed.

(** X16.  The category of every question that [parse] adds is either
    the category the parser started with or the category set by one of
    the directive blocks of the document; no other text becomes a
    category. *)
Theorem X16_categories_come_from_directives :
  forall self blocks self',
    parse_blocks self blocks = Ok self' ->
    exists new,
      questions self' = (questions self ++ new)%list /\
      Forall (fun q => category_from self blocks (category q)) new.
Proof.
  intros self blocks self' H. apply (parse_blocks_categories _ _ _ H).
Qed.

(** X16 on the three blocks above. *)
Lemma X16_categories_come_from_directives_witness :
  exists new,
    [{| type := truefalse; text := "Q1"; answers := [];
        category := current_category init; title := None;
        feedback := None; correct := Some true |}] =
    (questions init ++ new)%list /\
    Forall (fun q => category_from init ["Q1 {T}"; "$note"; "broken {"]
                                   (category q)) new.
Proof.
  exact (X16_categories_come_from_directives _ _ _ parse_three_blocks).
Defined.

(** ** Segments *)

Lemma blank_run_after_nl (t : string) :
  prefix NL t = true -> Re.blank_run (chars t) <> None.
Proof.
  destruct t as [|x t]; [discriminate|]. unfold NL. rewrite prefix_one.
  intros E. apply Ascii.eqb_eq in E. subst x.
  rewrite chars_ascii by reflexivity. cbn [Re.blank_run].
  change (is_space (String nl "")) with true. cbn iota.
  destruct (Re.blank_run (chars t)); discriminate.
Qed.

Lemma split_blank_clean (s : string) :
  forall k,
    Forall (fun b => contains (NL ++ NL) b = false) (Re.split_blank k s) /\
    (k = 0 -> forall h tl, Re.split_blank k s = h :: tl ->
              prefix NL h = true -> prefix NL s = true).
Proof.
  induction s as [|c t IH]; intros k; cbn [Re.split_blank].
  - split; [repeat constructor|].
    intros _ h tl E. inversion E; subst. discriminate.
  - destruct k as [|k].
    2:{ split; [apply IH | discriminate]. }
    assert (Hpush : Ascii.eqb c nl = false \/ Re.blank_run (chars t) = None ->
      Forall (fun b => contains (NL ++ NL) b = false)
             (push c (Re.split_blank 0 t)) /\
      (0 = 0 -> forall h tl, push c (Re.split_blank 0 t) = h :: tl ->
                prefix NL h = true -> prefix NL (String c t) = true)).
    { intros Hc. destruct (IH 0) as [Hf Hh].
      destruct (split_blank_nonempty t 0) as (h & tl & E). rewrite E in *.
      cbn [push]. inversion Hf; subst. split.
      - constructor; [|assumption].
        unfold NL in *. cbn [append contains] in *. rewrite H1, orb_false_r.
        rewrite prefix_two.
        destruct (Ascii.eqb nl c) eqn:Ec; [|reflexivity]. cbn [andb].
        destruct (prefix (String nl "") h) eqn:Ep; [|reflexivity].
        exfalso. destruct Hc as [Hc|Hc].
        + rewrite Ascii.eqb_sym, Ec in Hc. discriminate.
        + apply (blank_run_after_nl t); [|exact Hc].
          apply (Hh eq_refl h tl eq_refl Ep).
      - intros _ h' tl' E' Hp. inversion E'; subst.
        unfold NL in *. rewrite prefix_one in *. exact Hp. }
    destruct (Ascii.eqb c nl) eqn:Ec; [|apply Hpush; left; reflexivity].
    destruct (Re.blank_run (chars t)) as [n|] eqn:Eb;
      [|apply Hpush; right; reflexivity].
    split; [constructor; [reflexivity | apply IH]|].
    intros _ h tl E. inversion E; subst. discriminate.
Qed.

(** X17.  No block the segmenter hands on holds an empty line: in none
    of the pieces that the split on blank lines returns does a line feed
    follow a line feed, whatever the text. *)
Theorem X17_blocks_hold_no_empty_line :
  forall content,
    Forall (fun b => contains (NL ++ NL) b = false)
           (Re.split_blank 0 content).
Proof. intros s. apply split_blank_clean. Qed.
